(** * Police 288 landing page: service worker cache router and form helpers

    A shallow embedding of [sw.js] (the asset cache router with its install
    and activate lifecycle handlers) and of two functions of [script.js]
    ([convertArabicToEnglishNumbers] and [sendToMakeWebhook]), together with
    the properties the specification states about them.

    Conventions of the embedding:
    - a JavaScript promise is a computation in the [Async] monad: a function
      from the world to a settled outcome ([Fulfilled] or [Rejected]) and a
      new world; [await] is [bind], [try]/[catch] is [try_catch];
    - the world holds the cache storage, the cache writes that were issued
      without [await] (they take effect when [settle] runs) and the trace of
      platform calls made so far;
    - the network is an oracle handed to [fetch];
    - the browser's CacheStorage is an ordered association list of named
      caches, a Cache an ordered association list keyed by request URL;
    - console output is not modelled, nor is the second fetch listener
      (sw.js, lines 247-267), which only measures time. *)

From Stdlib Require Import ZArith List String Ascii Bool Arith Lia.
From Stdlib Require Import DecimalString.
From Equations Require Import Equations.
Import ListNotations.

Local Open Scope string_scope.
Local Open Scope list_scope.

(* ===================================================================== *)
(** * JavaScript values shared by both files *)
(* ===================================================================== *)

(** A thrown JavaScript error: [error.name] and [error.message]. *)
Record JsError : Type := mkError {
  err_name : string;
  err_message : string
}.

(** The two kinds of JavaScript value that meet in the retry condition of
    [sendToMakeWebhook]. *)
Inductive JsVal : Type :=
| JBool (b : bool)
| JStr (s : string).

(** ToBoolean: a string is truthy unless it is empty. *)
Definition js_truthy (v : JsVal) : bool :=
  match v with
  | JBool b => b
  | JStr s => negb (String.eqb s EmptyString)
  end.

(** The unary [!] operator. *)
Definition js_not (v : JsVal) : JsVal := JBool (negb (js_truthy v)).

(** The [===] operator: values of different types are never equal. *)
Definition js_strict_eq (v w : JsVal) : bool :=
  match v, w with
  | JBool a, JBool b => Bool.eqb a b
  | JStr a, JStr b => String.eqb a b
  | _, _ => false
  end.

(* ===================================================================== *)
(** * script.js *)
(* ===================================================================== *)

Module Script.

(** ** convertArabicToEnglishNumbers (script.js, lines 118-127) *)

(** A JavaScript string is a sequence of UTF-16 code units. *)
Definition jsstring : Type := list Z.

(** [arabicNumbers]: the one-code-unit strings U+0660 .. U+0669. *)
Definition arabicNumbers : list jsstring :=
  [ [1632%Z]; [1633%Z]; [1634%Z]; [1635%Z]; [1636%Z];
    [1637%Z]; [1638%Z]; [1639%Z]; [1640%Z]; [1641%Z] ].

(** [englishNumbers]: the strings '0' .. '9'. *)
Definition englishNumbers : list jsstring :=
  [ [48%Z]; [49%Z]; [50%Z]; [51%Z]; [52%Z];
    [53%Z]; [54%Z]; [55%Z]; [56%Z]; [57%Z] ].

(** Whether [pat] occurs at the head of [s]. *)
Fixpoint starts_with (pat s : jsstring) : bool :=
  match pat, s with
  | [], _ => true
  | _ :: _, [] => false
  | p :: pat', c :: s' => Z.eqb p c && starts_with pat' s'
  end.

(** [s.replace(new RegExp(pat, 'g'), repl)] for a non-empty pattern made of
    literal characters (none of the Arabic-Indic digits is a
    regular-expression metacharacter, and none of the replacements contains
    [$]).  The scan goes left to right; after a match it resumes behind the
    matched text.  [skip] counts the code units of the current match still
    to be consumed. *)
Fixpoint replace_global_from (skip : nat) (pat repl s : jsstring) : jsstring :=
  match s with
  | [] => []
  | c :: s' =>
      match skip with
      | S k => replace_global_from k pat repl s'
      | O =>
          match pat with
          | [] => c :: replace_global_from O pat repl s'
          | _ :: pat' =>
              if starts_with pat s
              then repl ++ replace_global_from (List.length pat') pat repl s'
              else c :: replace_global_from O pat repl s'
          end
      end
  end.

Definition replace_global (pat repl s : jsstring) : jsstring :=
  replace_global_from O pat repl s.

(** The [for] loop: [i] runs from 0 to [arabicNumbers.length - 1]. *)
Definition convertArabicToEnglishNumbers (input : jsstring) : jsstring :=
  fold_left
    (fun result i =>
       replace_global (nth i arabicNumbers []) (nth i englishNumbers []) result)
    (seq 0 (List.length arabicNumbers))
    input.

(** What the function does to one code unit, as the specification words it:
    an Arabic-Indic digit becomes the ASCII digit of the same value, anything
    else stays. *)
Definition digit_to_english (c : Z) : Z :=
  if (1632 <=? c)%Z && (c <=? 1641)%Z then (c - 1632 + 48)%Z else c.

(** ** sendToMakeWebhook (script.js, lines 554-592) *)

Definition maxRetries : nat := 2.
Definition timeout : Z := 10000.

(** What the network does with the POST of one attempt, left alone. *)
Inductive PostOutcome : Type :=
| Responds (latency : Z) (status : Z) (body : string)
| FailsAfter (latency : Z) (message : string)
| NeverSettles.

(** Observable steps of a submission. *)
Inductive WebhookEvent : Type :=
| EvPost (body : string) (attempt : nat)
| EvWait (ms : Z).

(** The object the function resolves with: [{success: true, data}] or
    [{success: false, error}]. *)
Inductive WebhookResult : Type :=
| Success (data : string)
| Failure (error : string).

Definition response_ok (status : Z) : bool :=
  (200 <=? status)%Z && (status <=? 299)%Z.

Definition decimal (z : Z) : string := NilEmpty.string_of_int (Z.to_int z).

(** The body of the [try] block for attempt [retryCount]: the fetch is
    aborted by the controller when it has not settled after [timeout]
    milliseconds; a response that is not ok is turned into a thrown [Error].
    [inl] is a value thrown into the [catch] block. *)
Definition try_post (net : nat -> PostOutcome) (retryCount : nat)
  : JsError + WebhookResult :=
  match net retryCount with
  | Responds latency status body =>
      if (latency <? timeout)%Z then
        if response_ok status then inr (Success body)
        else inl (mkError "Error" ("خطأ HTTP: " ++ decimal status))
      else inl (mkError "AbortError" "The operation was aborted.")
  | FailsAfter latency message =>
      if (latency <? timeout)%Z then inl (mkError "TypeError" message)
      else inl (mkError "AbortError" "The operation was aborted.")
  | NeverSettles => inl (mkError "AbortError" "The operation was aborted.")
  end.

(** The second operand of the retry condition,
    [!error.name === 'AbortError']: the negation binds tighter than the
    comparison. *)
Definition not_name_is_abort (error : JsError) : bool :=
  js_strict_eq (js_not (JStr (err_name error))) (JStr "AbortError").

Equations? sendToMakeWebhook (net : nat -> PostOutcome) (formData : string)
  (retryCount : nat) : list WebhookEvent * WebhookResult
  by wf (maxRetries - retryCount) lt :=
  sendToMakeWebhook net formData retryCount with try_post net retryCount => {
    | inr result := ([EvPost formData retryCount], result);
    | inl error with lt_dec retryCount maxRetries => {
        | left Hlt with not_name_is_abort error => {
            | true :=
                let rest := sendToMakeWebhook net formData (S retryCount) in
                (EvPost formData retryCount :: EvWait 2000 :: fst rest, snd rest);
            | false :=
                ([EvPost formData retryCount], Failure (err_message error)) };
        | right _ :=
            ([EvPost formData retryCount], Failure (err_message error)) } }.
Proof. unfold maxRetries in Hlt. destruct retryCount as [|[|n]]; lia. Qed.

(** Number of POSTs and of waits in a run. *)
Definition posts (t : list WebhookEvent) : nat :=
  List.length (filter (fun e => match e with EvPost _ _ => true | _ => false end) t).

Definition waits (t : list WebhookEvent) : nat :=
  List.length (filter (fun e => match e with EvWait _ => true | _ => false end) t).

End Script.

(* ===================================================================== *)
(** * sw.js *)
(* ===================================================================== *)

Module SW.

(** ** Constants (sw.js, lines 4-19) *)

Definition CACHE_NAME : string := "police288-v2.1.0".
Definition CACHE_STATIC_NAME : string := "police288-static-v2.1.0".
Definition CACHE_DYNAMIC_NAME : string := "police288-dynamic-v2.1.0".

Definition STATIC_CACHE_URLS : list string :=
  [ "/";
    "/index.html";
    "/styles.css?v=2.1.0&t=1734705600";
    "/mobile-reviews.css?v=2.1.0&t=1734705600";
    "/script.js?v=2.1.0&t=1734705600";
    "/public/images/288-flashlight-main-image.jpg";
    "/confirmation.html";
    "https://fonts.googleapis.com/css2?family=Cairo:wght@400;600;700&display=swap";
    "https://fonts.gstatic.com/s/cairo/v28/SLXgc1nY6HkvalYAIYM4_z6rC7TODm6H7xaFU6jd_E0w0tKLUdwqjZjL.woff2" ].

(** ** String operations used by the classifiers *)

(** [s.slice(n)]. *)
Fixpoint string_drop (n : nat) (s : string) : string :=
  match n, s with
  | O, _ => s
  | S _, EmptyString => EmptyString
  | S k, String _ s' => string_drop k s'
  end.

(** [s.includes(pat)]. *)
Fixpoint includes (s pat : string) : bool :=
  String.prefix pat s ||
  match s with
  | EmptyString => false
  | String _ s' => includes s' pat
  end.

(** [s.replace(pat, repl)] with a string pattern: only the first occurrence
    is replaced. *)
Fixpoint replace_first (pat repl s : string) {struct s} : string :=
  if String.prefix pat s then repl ++ string_drop (String.length pat) s
  else match s with
       | EmptyString => EmptyString
       | String c s' => String c (replace_first pat repl s')
       end.

(** [s.endsWith(suffix)]. *)
Fixpoint ends_with (suffix s : string) : bool :=
  String.eqb suffix s ||
  match s with
  | EmptyString => false
  | String _ s' => ends_with suffix s'
  end.

Definition lower_ascii (c : ascii) : ascii :=
  let n := nat_of_ascii c in
  if (65 <=? n)%nat && (n <=? 90)%nat then ascii_of_nat (n + 32) else c.

Fixpoint to_lower (s : string) : string :=
  match s with
  | EmptyString => EmptyString
  | String c s' => String (lower_ascii c) (to_lower s')
  end.

(** [/\.(e1|e2|...)$/i.test(url)]: the URL ends, case-insensitively, with a
    dot followed by one of the extensions. *)
Definition extension_test (extensions : list string) (url : string) : bool :=
  existsb (fun ext => ends_with ("." ++ ext) (to_lower url)) extensions.

(** [new URL(u).protocol]: the scheme with its colon. *)
Fixpoint url_protocol (u : string) : string :=
  match u with
  | EmptyString => EmptyString
  | String c u' =>
      if Ascii.eqb c ":"%char then String c EmptyString
      else String c (url_protocol u')
  end.

(** ** Classifiers (sw.js, lines 97-113) *)

Definition isStaticAsset (url : string) : bool :=
  existsb (fun staticUrl => includes url (replace_first "/" EmptyString staticUrl))
          STATIC_CACHE_URLS
  || extension_test ["css"; "js"; "woff2"; "woff"; "ttf"] url.

Definition isImageRequest (url : string) : bool :=
  extension_test ["png"; "jpg"; "jpeg"; "gif"; "webp"; "avif"; "svg"; "ico"] url.

Definition isAPIRequest (url : string) : bool :=
  includes url "make.com" ||
  includes url "analytics.tiktok.com" ||
  includes url "googleapis.com".

(** ** Requests, responses, caches *)

Record Response : Type := mkResponse {
  status : Z;
  headers : list (string * string);
  body : string
}.

(** [response.ok]: the status is in the range 200-299. *)
Definition ok (r : Response) : bool :=
  (200 <=? status r)%Z && (status r <=? 299)%Z.

(** [response.clone()]: a second response with the same content. *)
Definition clone (r : Response) : Response := r.

Definition header (name : string) (r : Response) : option string :=
  option_map snd (find (fun h => String.eqb (fst h) name) (headers r)).

(** The members of a comma-separated header value. *)
Fixpoint members (v : string) : list string :=
  match v with
  | EmptyString => [EmptyString]
  | String c v' =>
      if Ascii.eqb c ","%char then EmptyString :: members v'
      else match members v' with
           | m :: ms => String c m :: ms
           | [] => [String c EmptyString]
           end
  end.

Definition is_blank (c : ascii) : bool :=
  Ascii.eqb c " "%char || Ascii.eqb c (ascii_of_nat 9).

Fixpoint strip_left (s : string) : string :=
  match s with
  | EmptyString => EmptyString
  | String c s' => if is_blank c then strip_left s' else s
  end.

Fixpoint strip_right (s : string) : string :=
  match s with
  | EmptyString => EmptyString
  | String c s' =>
      match strip_right s' with
      | EmptyString => if is_blank c then EmptyString else String c EmptyString
      | t => String c t
      end
  end.

(** Whether the response carries a Vary header with the member [*]. *)
Definition vary_star (r : Response) : bool :=
  existsb
    (fun h =>
       String.eqb (to_lower (fst h)) "vary" &&
       existsb (fun m => String.eqb (strip_right (strip_left m)) "*")
         (members (snd h)))
    (headers r).

(** What [Cache.put] and [Cache.addAll] demand of a response before they
    store it: a status other than 206 and no [Vary: *].  (Their demands on
    the request, a GET over http(s), are met by every request the fetch
    listener intercepts and by every request built from the manifest.) *)
Definition cache_accepts (r : Response) : bool :=
  negb (Z.eqb (status r) 206) && negb (vary_star r).

Record Request : Type := mkRequest {
  method : string;
  url : string;
  cache_mode : string
}.

(** What the network does with a request: [fetch] resolves with a response
    (of any status) or rejects. *)
Inductive NetOutcome : Type :=
| NetResponse (r : Response)
| NetFailure (e : JsError).

Definition Network : Type := Request -> NetOutcome.

(** A Cache: request/response pairs in insertion order, keyed by the request
    URL (every request that reaches a handler is a GET, sw.js line 79). *)
Definition Cache : Type := list (string * Response).

(** The CacheStorage: named caches in creation order. *)
Definition CacheStorage : Type := list (string * Cache).

Definition entries_match (key : string) (c : Cache) : option Response :=
  option_map snd (find (fun e => String.eqb (fst e) key) c).

Definition entries_remove (key : string) (c : Cache) : Cache :=
  filter (fun e => negb (String.eqb (fst e) key)) c.

(** Cache.put: entries matching the request are removed, the new pair is
    appended. *)
Definition entries_put (key : string) (r : Response) (c : Cache) : Cache :=
  entries_remove key c ++ [(key, r)].

Definition entries_put_all (es : list (string * Response)) (c : Cache) : Cache :=
  fold_left (fun acc e => entries_put (fst e) (snd e) acc) es c.

Definition storage_find (name : string) (st : CacheStorage) : option Cache :=
  option_map snd (find (fun n => String.eqb (fst n) name) st).

Definition storage_has (name : string) (st : CacheStorage) : bool :=
  existsb (fun n => String.eqb (fst n) name) st.

(** CacheStorage.match: the caches are searched in creation order. *)
Fixpoint storage_match (key : string) (st : CacheStorage) : option Response :=
  match st with
  | [] => None
  | (_, c) :: st' =>
      match entries_match key c with
      | Some r => Some r
      | None => storage_match key st'
      end
  end.

(** CacheStorage.open: the cache is created, empty, when it does not exist. *)
Definition storage_open (name : string) (st : CacheStorage) : CacheStorage :=
  if storage_has name st then st else st ++ [(name, [])].

Definition storage_delete (name : string) (st : CacheStorage) : CacheStorage :=
  filter (fun n => negb (String.eqb (fst n) name)) st.

Definition storage_update (name : string) (f : Cache -> Cache)
  (st : CacheStorage) : CacheStorage :=
  map (fun n => if String.eqb (fst n) name then (fst n, f (snd n)) else n) st.

(** The entry of [key] in the namespace [name]; a namespace that does not
    exist holds no entry. *)
Definition namespace_entry (name key : string) (st : CacheStorage)
  : option Response :=
  match storage_find name st with
  | Some c => entries_match key c
  | None => None
  end.

(** ** The world and the promise monad *)

Inductive Event : Type :=
| EvFetch (request : Request)
| EvMatch (key : string)
| EvOpen (name : string)
| EvKeys
| EvDelete (name : string)
| EvPut (name key : string) (response : Response)
| EvAddAll (name : string) (keys : list string)
| EvSkipWaiting
| EvClaim.

(** A [cache.put] whose promise nobody awaits. *)
Record PendingPut : Type := mkPending {
  pp_cache : string;
  pp_key : string;
  pp_response : Response
}.

Record World : Type := mkWorld {
  caches : CacheStorage;
  pending : list PendingPut;
  trace : list Event
}.

Inductive Settled (A : Type) : Type :=
| Fulfilled (a : A)
| Rejected (e : JsError).
Arguments Fulfilled {A} a.
Arguments Rejected {A} e.

Definition Async (A : Type) : Type := World -> Settled A * World.

Definition ret {A : Type} (a : A) : Async A := fun w => (Fulfilled a, w).

Definition throw {A : Type} (e : JsError) : Async A := fun w => (Rejected e, w).

Definition bind {A B : Type} (m : Async A) (k : A -> Async B) : Async B :=
  fun w =>
    match m w with
    | (Fulfilled a, w') => k a w'
    | (Rejected e, w') => (Rejected e, w')
    end.

Definition try_catch {A : Type} (m : Async A) (handler : JsError -> Async A)
  : Async A :=
  fun w =>
    match m w with
    | (Fulfilled a, w') => (Fulfilled a, w')
    | (Rejected e, w') => handler e w'
    end.

Declare Scope async_scope.
Delimit Scope async_scope with async.
Notation "x <- m ;; k" := (bind m (fun x => k))
  (at level 61, m at next level, right associativity) : async_scope.
Notation "m ;;; k" := (bind m (fun _ => k))
  (at level 61, right associativity) : async_scope.
Local Open Scope async_scope.

Definition emit (e : Event) (w : World) : World :=
  mkWorld (caches w) (pending w) (trace w ++ [e]).

Definition with_caches (st : CacheStorage) (w : World) : World :=
  mkWorld st (pending w) (trace w).

(** [Promise.all]: every promise of the array has been started, so every one
    runs; the result rejects with the first rejection. *)
Fixpoint promise_all {A : Type} (ps : list (Async A)) : Async (list A) :=
  fun w =>
    match ps with
    | [] => (Fulfilled [], w)
    | p :: ps' =>
        let (o, w1) := p w in
        let (os, w2) := promise_all ps' w1 in
        (match o, os with
         | Rejected e, _ => Rejected e
         | Fulfilled _, Rejected e => Rejected e
         | Fulfilled a, Fulfilled l => Fulfilled (a :: l)
         end, w2)
    end.

(** When the writes that were issued without [await] have completed. *)
Definition apply_put (st : CacheStorage) (p : PendingPut) : CacheStorage :=
  storage_update (pp_cache p) (entries_put (pp_key p) (pp_response p)) st.

Definition settle (w : World) : World :=
  mkWorld (fold_left apply_put (pending w) (caches w)) [] (trace w).

(** ** Platform operations and the handlers *)

Section Worker.

(** The origin the worker is served from: root-relative URLs resolve against
    it. *)
Variable origin : string.

(** The network as it is while the handler runs. *)
Variable net : Network.

(** URL resolution for the two shapes the worker uses: a root-relative path
    and an absolute URL. *)
Definition resolve (u : string) : string :=
  if String.prefix "/" u then origin ++ u else u.

(** [new Request(url, { cache: mode })]. *)
Definition new_Request (u mode : string) : Request :=
  mkRequest "GET" (resolve u) mode.

Definition fetch (request : Request) : Async Response :=
  fun w =>
    match net request with
    | NetResponse r => (Fulfilled r, emit (EvFetch request) w)
    | NetFailure e => (Rejected e, emit (EvFetch request) w)
    end.

(** [caches.match(x)]: [undefined] (here [None]) when nothing matches. *)
Definition caches_match (key : string) : Async (option Response) :=
  fun w => (Fulfilled (storage_match key (caches w)), emit (EvMatch key) w).

(** [caches.open(name)]; the Cache object is represented by its name. *)
Definition caches_open (name : string) : Async string :=
  fun w =>
    (Fulfilled name,
     emit (EvOpen name) (with_caches (storage_open name (caches w)) w)).

Definition caches_keys : Async (list string) :=
  fun w => (Fulfilled (map fst (caches w)), emit EvKeys w).

Definition caches_delete (name : string) : Async bool :=
  fun w =>
    (Fulfilled (storage_has name (caches w)),
     emit (EvDelete name) (with_caches (storage_delete name (caches w)) w)).

(** [cache.put(request, response)] as the handlers call it, without [await]:
    the write is issued and the handler goes on.  For a response the cache
    does not accept the call returns a rejected promise, which nobody looks
    at, and no write is issued. *)
Definition cache_put (cache : string) (request : Request) (response : Response)
  : Async unit :=
  fun w =>
    (Fulfilled tt,
     mkWorld (caches w)
             (pending w ++
              (if cache_accepts response
               then [mkPending cache (url request) response]
               else []))
             (trace w ++ [EvPut cache (url request) response])).

(** The responses [cache.addAll] would store: every request is fetched, and
    one failed fetch, one response that is not ok or one response the cache
    does not accept fails the whole batch. *)
Fixpoint fetch_all (requests : list Request) : option (list (string * Response)) :=
  match requests with
  | [] => Some []
  | request :: rest =>
      match net request with
      | NetResponse r =>
          if ok r && cache_accepts r then
            match fetch_all rest with
            | Some es => Some ((url request, r) :: es)
            | None => None
            end
          else None
      | NetFailure _ => None
      end
  end.

(** [cache.addAll(requests)], awaited: all or nothing. *)
Definition cache_addAll (cache : string) (requests : list Request) : Async unit :=
  fun w =>
    let w1 := emit (EvAddAll cache (map url requests)) w in
    match fetch_all requests with
    | Some es =>
        (Fulfilled tt,
         with_caches (storage_update cache (entries_put_all es) (caches w1)) w1)
    | None => (Rejected (mkError "TypeError" "Request failed"), w1)
    end.

Definition skipWaiting : Async unit :=
  fun w => (Fulfilled tt, emit EvSkipWaiting w).

Definition clients_claim : Async unit :=
  fun w => (Fulfilled tt, emit EvClaim w).

(** *** Install (sw.js, lines 29-48): the promise given to
    [event.waitUntil].  Both [caches.open] calls are made while the array
    for [Promise.all] is built; the callback that calls [cache.addAll] runs
    afterwards, when the first of them has resolved.  Console output is not
    modelled. *)
Definition install : Async unit :=
  try_catch
    (cache <- caches_open CACHE_STATIC_NAME ;;
     dynamic <- caches_open CACHE_DYNAMIC_NAME ;;
     promise_all
       [ cache_addAll cache
           (map (fun u => new_Request u "reload") STATIC_CACHE_URLS);
         ret tt ] ;;;
     skipWaiting)
    (fun error => ret tt).

(** *** Activate (sw.js, lines 51-71) *)
Definition is_old_cache (cacheName : string) : bool :=
  negb (String.eqb cacheName CACHE_STATIC_NAME) &&
  negb (String.eqb cacheName CACHE_DYNAMIC_NAME) &&
  String.prefix "police288-" cacheName.

Definition activate : Async unit :=
  (cacheNames <- caches_keys ;;
   promise_all
     (map (fun cacheName =>
             if is_old_cache cacheName
             then (caches_delete cacheName ;;; ret tt)
             else ret tt)
          cacheNames)) ;;;
  clients_claim.

(** The placeholder body (sw.js, lines 163-166), line by line. *)
Definition dq : string := String (ascii_of_nat 34) EmptyString.
Definition nl : string := String (ascii_of_nat 10) EmptyString.

Definition placeholder_svg : string :=
  "<svg xmlns=" ++ dq ++ "http://www.w3.org/2000/svg" ++ dq ++
  " width=" ++ dq ++ "200" ++ dq ++ " height=" ++ dq ++ "150" ++ dq ++
  " viewBox=" ++ dq ++ "0 0 200 150" ++ dq ++ ">" ++ nl ++
  "                <rect width=" ++ dq ++ "200" ++ dq ++ " height=" ++ dq ++
  "150" ++ dq ++ " fill=" ++ dq ++ "#f1f5f9" ++ dq ++ "/>" ++ nl ++
  "                <text x=" ++ dq ++ "50%" ++ dq ++ " y=" ++ dq ++ "50%" ++ dq ++
  " text-anchor=" ++ dq ++ "middle" ++ dq ++ " dy=" ++ dq ++ ".3em" ++ dq ++
  " fill=" ++ dq ++ "#64748b" ++ dq ++ ">📷</text>" ++ nl ++
  "            </svg>".

(** [new Response(body, { headers })]: the status defaults to 200. *)
Definition new_Response (b : string) (hs : list (string * string)) : Response :=
  mkResponse 200 hs b.

Definition placeholder : Response :=
  new_Response placeholder_svg [("Content-Type", "image/svg+xml")].

(** *** handleStaticAsset (sw.js, lines 116-135) *)
Definition handleStaticAsset (request : Request) : Async (option Response) :=
  try_catch
    (cachedResponse <- caches_match (url request) ;;
     match cachedResponse with
     | Some r => ret (Some r)
     | None =>
         networkResponse <- fetch request ;;
         cache <- caches_open CACHE_STATIC_NAME ;;
         (if ok networkResponse
          then cache_put cache request (clone networkResponse)
          else ret tt) ;;;
         ret (Some networkResponse)
     end)
    (fun error => caches_match (url request)).

(** *** handleImageRequest (sw.js, lines 138-170) *)
Definition handleImageRequest (request : Request) : Async (option Response) :=
  try_catch
    (cachedResponse <- caches_match (url request) ;;
     match cachedResponse with
     | Some r => ret (Some r)
     | None =>
         networkResponse <- fetch request ;;
         (if ok networkResponse
          then (cache <- caches_open CACHE_DYNAMIC_NAME ;;
                cache_put cache request (clone networkResponse))
          else ret tt) ;;;
         ret (Some networkResponse)
     end)
    (fun error =>
       cachedResponse <- caches_match (url request) ;;
       match cachedResponse with
       | Some r => ret (Some r)
       | None => ret (Some placeholder)
       end).

(** *** handleAPIRequest (sw.js, lines 173-181) *)
Definition handleAPIRequest (request : Request) : Async (option Response) :=
  try_catch
    (networkResponse <- fetch request ;;
     ret (Some networkResponse))
    (fun error => throw error).

(** *** handleHTMLRequest (sw.js, lines 184-205) *)
Definition handleHTMLRequest (request : Request) : Async (option Response) :=
  try_catch
    (networkResponse <- fetch request ;;
     (if ok networkResponse
      then (cache <- caches_open CACHE_DYNAMIC_NAME ;;
            cache_put cache request (clone networkResponse))
      else ret tt) ;;;
     ret (Some networkResponse))
    (fun error =>
       cachedResponse <- caches_match (url request) ;;
       match cachedResponse with
       | Some r => ret (Some r)
       | None => caches_match (resolve "/index.html")
       end).

(** *** The fetch listener (sw.js, lines 74-94) *)

(** Where the listener sends a request. *)
Inductive Route : Type :=
| NotIntercepted
| StaticAsset
| Image
| API
| HTML.

Definition route (request : Request) : Route :=
  if negb (String.eqb (method request) "GET") then NotIntercepted
  else if negb (String.prefix "http" (url_protocol (url request)))
       then NotIntercepted
  else if isStaticAsset (url request) then StaticAsset
  else if isImageRequest (url request) then Image
  else if isAPIRequest (url request) then API
  else HTML.

(** The promise handed to [event.respondWith]; [None] when the listener
    returns without calling it. *)
Definition onfetch (request : Request) : option (Async (option Response)) :=
  match route request with
  | NotIntercepted => None
  | StaticAsset => Some (handleStaticAsset request)
  | Image => Some (handleImageRequest request)
  | API => Some (handleAPIRequest request)
  | HTML => Some (handleHTMLRequest request)
  end.

(** *** updateCache (sw.js, lines 238-244) *)
Definition updateCache : Async unit :=
  cache <- caches_open CACHE_STATIC_NAME ;;
  cache_addAll cache (map (fun u => new_Request u "reload") STATIC_CACHE_URLS).

(** *** clearAllCaches (sw.js, lines 229-235) *)
Definition clearAllCaches : Async unit :=
  cacheNames <- caches_keys ;;
  promise_all (map (fun cacheName => caches_delete cacheName) cacheNames) ;;;
  ret tt.

End Worker.

End SW.

(* ===================================================================== *)
(** * Concrete inputs and derived notions used in the statements *)
(* ===================================================================== *)

Module Inputs.
Import SW.

(** Concrete inputs used by the examples. *)
Definition example_origin : string := "https://police288.example".

Definition empty_world : World := mkWorld [] [] [].

Definition offline : Network :=
  fun _ => NetFailure (mkError "TypeError" "Failed to fetch").

Definition page_200 : Response :=
  mkResponse 200 [("Content-Type", "text/html")] "<html></html>".

Definition page_404 : Response :=
  mkResponse 404 [("Content-Type", "text/html")] "Not Found".

Definition serves (r : Response) : Network := fun _ => NetResponse r.

Definition get (u : string) : Request := mkRequest "GET" u "default".

(** Two worlds hold the same cached entries: no write was issued and every
    key of every namespace maps to what it mapped to. *)
Definition same_entries (w w' : World) : Prop :=
  pending w' = pending w /\
  forall name key,
    namespace_entry name key (caches w') = namespace_entry name key (caches w).

(** One step of the activation loop, on the storage alone. *)
Definition delete_if_old (st : CacheStorage) (cacheName : string) : CacheStorage :=
  if is_old_cache cacheName then storage_delete cacheName st else st.

(** Whether [key] is one of [keys]. *)
Definition mem (key : string) (keys : list string) : bool :=
  existsb (fun k => String.eqb k key) keys.

(** Number of entries a cache holds under [key]. *)
Definition count_key (key : string) (c : Cache) : nat :=
  List.length (filter (fun e => String.eqb (fst e) key) c).

(** Number of entries the namespace [name] holds under [key]; a namespace
    that does not exist holds none. *)
Definition namespace_count (name key : string) (st : CacheStorage) : nat :=
  match storage_find name st with
  | Some c => count_key key c
  | None => 0
  end.

(** The requests the install handler hands to [cache.addAll]. *)
Definition manifest_requests (origin : string) : list Request :=
  map (fun u => new_Request origin u "reload") STATIC_CACHE_URLS.

(** What the page gets for a request: the settled promise the fetch listener
    hands to [event.respondWith], with the world it leaves; [None] when the
    listener does not intercept the request. *)
Definition respond (origin : string) (net : Network) (request : Request)
  (w : World) : option (Settled (option Response) * World) :=
  option_map (fun handler => handler w) (onfetch origin net request).

(** Responses the Cache API refuses although they are ok. *)
Definition partial_content : Response :=
  mkResponse 206 [("Content-Range", "bytes 0-99/1000")] "...".

Definition varies_on_everything : Response :=
  mkResponse 200 [("Content-Type", "text/css"); ("vary", "Accept-Encoding , *")]
    "body{}".

(** A network on which one manifest URL cannot be fetched. *)
Definition confirmation_unreachable : Network :=
  fun request =>
    if String.eqb (url request) "https://police288.example/confirmation.html"
    then NetFailure (mkError "TypeError" "Failed to fetch")
    else NetResponse page_200.

End Inputs.

(* ===================================================================== *)
(** * sw.js: the control channel *)
(* ===================================================================== *)

Module Messages.
Import SW.
Local Open Scope async_scope.

(** What the page reads on the reply port: [{ success: true }]. *)
Inductive Reply : Type :=
| ReplySuccess.

Section Listener.

Variable origin : string.
Variable net : Network.

(** The message listener (sw.js, lines 208-226).  [msg_type] is
    [event.data.type], [None] when [event.data] is missing or carries no
    [type].  The value of the computation is what has been posted on
    [event.ports[0]] by the time the listener's promise chain settles; a
    [Rejected] outcome is a rejection that nothing handles, after which
    nothing is posted. *)
Definition onmessage (msg_type : option string) : Async (list Reply) :=
  match msg_type with
  | None => ret []
  | Some t =>
      if negb (js_truthy (JStr t)) then ret []
      else if String.eqb t "SKIP_WAITING" then skipWaiting ;;; ret []
      else if String.eqb t "CLEAR_CACHE"
           then clearAllCaches ;;; ret [ReplySuccess]
      else if String.eqb t "UPDATE_CACHE"
           then updateCache origin net ;;; ret [ReplySuccess]
      else ret []
  end.

End Listener.

(** A manifest request the network does not answer with an ok response. *)
Definition unusable (net : Network) (request : Request) : Prop :=
  match net request with
  | NetResponse r => ok r = false
  | NetFailure _ => True
  end.

(** A network that answers everything with 200 except one URL, which it
    answers with 404. *)
Definition missing_stylesheet : Network :=
  fun request =>
    if String.eqb (url request)
         "https://police288.example/styles.css?v=2.1.0&t=1734705600"
    then NetResponse Inputs.page_404
    else NetResponse Inputs.page_200.

End Messages.

(* ===================================================================== *)
(** * More concrete inputs *)
(* ===================================================================== *)

Module MoreInputs.
Import SW.

(** Two versions of the same page. *)
Definition stale_page : Response :=
  mkResponse 200 [("Content-Type", "text/html")] "<html>old</html>".

Definition fresh_page : Response :=
  mkResponse 200 [("Content-Type", "text/html")] "<html>new</html>".

(** The storage after an install that cached a stale copy of the root
    document. *)
Definition world_with_stale_root : World :=
  mkWorld [ (CACHE_STATIC_NAME, [("https://police288.example/", stale_page)]);
            (CACHE_DYNAMIC_NAME, []) ] [] [].

End MoreInputs.

(* ===================================================================== *)
(** * script.js: the main slider (lines 168-171, 450-516, 891-911) *)
(* ===================================================================== *)

Module Slider.

(** The module-level variables of the slider together with the part of the
    page and of the timer table they act on. *)
Record State : Type := mkState {
  currentMainSlide : Z;
  totalMainSlides : Z;
  (** the handle kept in [mainAutoPlayInterval]; [None] is [undefined] *)
  mainAutoPlayInterval : option nat;
  (** [startX] of the touch listeners *)
  startX : Z;
  (** whether the element [#mainSliderWrapper] exists *)
  wrapper_present : bool;
  (** the percentage of its [translateX], once one has been set *)
  wrapper_transform : option Z;
  (** for each [.indicator], whether it carries the class 'active' *)
  indicators : list bool;
  (** the interval timers that are running, oldest first *)
  timers : list nat;
  (** the id the next [setInterval] returns *)
  next_timer : nat
}.

Definition set_current (c : Z) (s : State) : State :=
  mkState c (totalMainSlides s) (mainAutoPlayInterval s) (startX s)
    (wrapper_present s) (wrapper_transform s) (indicators s) (timers s)
    (next_timer s).

Definition set_total (t : Z) (s : State) : State :=
  mkState (currentMainSlide s) t (mainAutoPlayInterval s) (startX s)
    (wrapper_present s) (wrapper_transform s) (indicators s) (timers s)
    (next_timer s).

Definition set_startX (x : Z) (s : State) : State :=
  mkState (currentMainSlide s) (totalMainSlides s) (mainAutoPlayInterval s) x
    (wrapper_present s) (wrapper_transform s) (indicators s) (timers s)
    (next_timer s).

Definition set_transform (p : Z) (s : State) : State :=
  mkState (currentMainSlide s) (totalMainSlides s) (mainAutoPlayInterval s)
    (startX s) (wrapper_present s) (Some p) (indicators s) (timers s)
    (next_timer s).

Definition set_indicators (l : list bool) (s : State) : State :=
  mkState (currentMainSlide s) (totalMainSlides s) (mainAutoPlayInterval s)
    (startX s) (wrapper_present s) (wrapper_transform s) l (timers s)
    (next_timer s).

(** [setInterval]: a new timer runs and its id is returned (here: stored in
    [mainAutoPlayInterval], the only place the code keeps one). *)
Definition setInterval_into_handle (s : State) : State :=
  mkState (currentMainSlide s) (totalMainSlides s) (Some (next_timer s))
    (startX s) (wrapper_present s) (wrapper_transform s) (indicators s)
    (timers s ++ [next_timer s]) (S (next_timer s)).

(** [clearInterval(mainAutoPlayInterval)]: the timer with that id stops;
    clearing [undefined] or an id that is not running does nothing.  The
    variable keeps its value. *)
Definition clearInterval_handle (s : State) : State :=
  match mainAutoPlayInterval s with
  | None => s
  | Some h =>
      mkState (currentMainSlide s) (totalMainSlides s) (mainAutoPlayInterval s)
        (startX s) (wrapper_present s) (wrapper_transform s) (indicators s)
        (filter (fun t => negb (Nat.eqb t h)) (timers s)) (next_timer s)
  end.

(** The indicator at position [i] is active exactly when [i] is the active
    index. *)
Fixpoint toggle_from (i : nat) (activeIndex : Z) (l : list bool) : list bool :=
  match l with
  | [] => []
  | _ :: l' => Z.eqb (Z.of_nat i) activeIndex :: toggle_from (S i) activeIndex l'
  end.

Definition updateIndicators (activeIndex : Z) (s : State) : State :=
  set_indicators (toggle_from 0 activeIndex (indicators s)) s.

Definition showMainSlide (index : Z) (s : State) : State :=
  if Z.eqb (totalMainSlides s) 0 then s
  else if wrapper_present s
       then updateIndicators index (set_transform (index * 100) s)
       else s.

Definition startMainAutoPlay (s : State) : State :=
  if Z.leb (totalMainSlides s) 1 then s else setInterval_into_handle s.

Definition resetMainAutoPlay (s : State) : State :=
  startMainAutoPlay (clearInterval_handle s).

Definition pauseMainAutoPlay (s : State) : State := clearInterval_handle s.

Definition changeMainSlide (direction : Z) (s : State) : State :=
  if Z.eqb (totalMainSlides s) 0 then s
  else
    let moved := (currentMainSlide s + direction)%Z in
    let wrapped :=
      if Z.geb moved (totalMainSlides s) then 0%Z
      else if Z.ltb moved 0 then (totalMainSlides s - 1)%Z
      else moved in
    resetMainAutoPlay (showMainSlide wrapped (set_current wrapped s)).

Definition goToSlide (index : Z) (s : State) : State :=
  if Z.geb index 0 && Z.ltb index (totalMainSlides s)
  then resetMainAutoPlay (showMainSlide index (set_current index s))
  else s.

(** [initializeMainSlider], given the number of [.main-slide] elements. *)
Definition initializeMainSlider (slides : nat) (s : State) : State :=
  let s1 := set_total (Z.of_nat slides) s in
  if Z.gtb (totalMainSlides s1) 0
  then updateIndicators 0 (showMainSlide 0 s1)
  else s1.

(** One firing of the interval timer [id]: its callback runs only while the
    timer is running. *)
Definition tick (id : nat) (s : State) : State :=
  if existsb (Nat.eqb id) (timers s) then changeMainSlide 1 s else s.

(** The touch listeners; positions in whole pixels. *)
Definition touchstart (clientX : Z) (s : State) : State :=
  pauseMainAutoPlay (set_startX clientX s).

Definition touchend (clientX : Z) (s : State) : State :=
  let diff := (startX s - clientX)%Z in
  startMainAutoPlay
    (if Z.gtb (Z.abs diff) 50
     then changeMainSlide (if Z.gtb diff 0 then 1 else (-1))%Z s
     else s).

(** Where [changeMainSlide] lands: the wrap-around of its two tests. *)
Definition wrap (total moved : Z) : Z :=
  if Z.geb moved total then 0%Z
  else if Z.ltb moved 0 then (total - 1)%Z
  else moved.

(** What the autoplay functions read and write. *)
Definition timer_view (s : State) : Z * option nat * list nat * nat :=
  (totalMainSlides s, mainAutoPlayInterval s, timers s, next_timer s).

Definition without_timer (h : option nat) (l : list nat) : list nat :=
  match h with
  | None => l
  | Some id => filter (fun t => negb (Nat.eqb t id)) l
  end.

(** A running timer whose id the page no longer holds. *)
Definition is_lost (id : nat) (s : State) : Prop :=
  In id (timers s) /\
  mainAutoPlayInterval s <> Some id /\
  (id < next_timer s)%nat.

(** What can happen to the slider: the calls the page makes and the
    firing of a timer. *)
Inductive Action : Type :=
| ChangeSlide (direction : Z)
| GoTo (index : Z)
| MouseEnter
| MouseLeave
| Tick (id : nat)
| TouchStart (clientX : Z)
| TouchEnd (clientX : Z).

Definition perform (s : State) (a : Action) : State :=
  match a with
  | ChangeSlide direction => changeMainSlide direction s
  | GoTo index => goToSlide index s
  | MouseEnter => pauseMainAutoPlay s
  | MouseLeave => startMainAutoPlay s
  | Tick id => tick id s
  | TouchStart clientX => touchstart clientX s
  | TouchEnd clientX => touchend clientX s
  end.

(** A slider of three slides showing the first one, with its autoplay timer
    running. *)
Definition three_slides : State :=
  mkState 0 3 (Some 0%nat) 0 true (Some 0%Z) [true; false; false] [0%nat] 1.

End Slider.

(* ===================================================================== *)
(** * script.js: the order form (lines 130-163, 685-776) *)
(* ===================================================================== *)

Module Form.
Import Script.

(** ** Strings *)

(** The code units [String.prototype.trim] strips: white space and line
    terminators. *)
Definition is_whitespace (c : Z) : bool :=
  existsb (Z.eqb c)
    [9; 10; 11; 12; 13; 32; 160; 5760; 8232; 8233; 8239; 8287; 12288; 65279]%Z
  || ((8192 <=? c)%Z && (c <=? 8202)%Z).

Fixpoint trim_start (s : jsstring) : jsstring :=
  match s with
  | [] => []
  | c :: s' => if is_whitespace c then trim_start s' else s
  end.

Definition trim_end (s : jsstring) : jsstring := rev (trim_start (rev s)).

(** [s.trim()]. *)
Definition trim (s : jsstring) : jsstring := trim_end (trim_start s).

(** [a === b] on strings. *)
Definition jsstring_eqb (a b : jsstring) : bool :=
  if list_eq_dec Z.eq_dec a b then true else false.

(** ** Fields *)

(** An input of the form: its id, its value, the colour of its border and
    the texts of the [.field-error] elements of its parent, in document
    order (every field sits in a parent of its own). *)
Record Field : Type := mkField {
  id : string;
  value : jsstring;
  borderColor : string;
  errors : list string
}.

Definition set_value (v : jsstring) (f : Field) : Field :=
  mkField (id f) v (borderColor f) (errors f).

(** [showFieldError] (lines 756-767): the border turns red and a new error
    element is appended to the parent. *)
Definition showFieldError (field : Field) (message : string) : Field :=
  mkField (id field) (value field) "#e53e3e" (errors field ++ [message]).

(** [removeFieldError] (lines 769-776): the border is reset and the first
    error element of the parent, if there is one, is removed. *)
Definition removeFieldError (field : Field) : Field :=
  mkField (id field) (value field) "#e2e8f0" (tl (errors field)).

(** The [switch] of [validateField]: validity and error message for the
    trimmed (and, for the numeric fields, converted) value. *)
Definition check (field_id : string) (v : jsstring) : bool * string :=
  if String.eqb field_id "name" then
    match v with
    | [] => (false, "الاسم مطلوب")
    | _ => if (List.length v <? 2)%nat then (false, "الاسم قصير جداً")
           else (true, EmptyString)
    end
  else if String.eqb field_id "phone" then
    match v with
    | [] => (false, "رقم الهاتف مطلوب")
    | _ => (true, EmptyString)
    end
  else if String.eqb field_id "whatsapp" then (true, EmptyString)
  else if String.eqb field_id "address" then
    match v with
    | [] => (false, "العنوان مطلوب")
    | _ => if (List.length v <? 10)%nat
           then (false, "يرجى كتابة عنوان مفصل أكثر")
           else (true, EmptyString)
    end
  else (true, EmptyString).

(** [validateField] (lines 699-754), on the field [e.target]: the result
    and the field as the call leaves it. *)
Definition validateField (field : Field) : bool * Field :=
  let trimmed := trim (value field) in
  let numeric :=
    String.eqb (id field) "phone" || String.eqb (id field) "whatsapp" in
  let v := if numeric then convertArabicToEnglishNumbers trimmed else trimmed in
  let field1 :=
    if numeric && negb (jsstring_eqb (value field) v)
    then set_value v field else field in
  let field2 := removeFieldError field1 in
  let (isValid, errorMessage) := check (id field) v in
  if negb isValid then (isValid, showFieldError field2 errorMessage)
  else (isValid, field2).

(** The value [validateField] checks: trimmed, and converted for the two
    numeric fields. *)
Definition checked_value (field : Field) : jsstring :=
  if String.eqb (id field) "phone" || String.eqb (id field) "whatsapp"
  then convertArabicToEnglishNumbers (trim (value field))
  else trim (value field).

(** ** The document *)

Definition Document : Type := list Field.

Definition getElementById (doc : Document) (i : string) : option Field :=
  find (fun f => String.eqb (id f) i) doc.

(** The element with id [i] after a call has changed it in place. *)
Fixpoint replace_element (i : string) (f' : Field) (doc : Document) : Document :=
  match doc with
  | [] => []
  | f :: rest =>
      if String.eqb (id f) i then f' :: rest
      else f :: replace_element i f' rest
  end.

Definition requiredFields : list string :=
  ["name"; "phone"; "quantity"; "address"].

(** The [forEach] of [validateForm]: reading [value] of an element that does
    not exist throws, which ends the loop. *)
Fixpoint validate_each (ids : list string) (isValid : bool) (doc : Document)
  : (JsError + bool) * Document :=
  match ids with
  | [] => (inr isValid, doc)
  | fieldId :: rest =>
      match getElementById doc fieldId with
      | None =>
          (inl (mkError "TypeError"
                  "Cannot read properties of null (reading 'value')"), doc)
      | Some field =>
          let (valid, field') := validateField field in
          validate_each rest (if negb valid then false else isValid)
            (replace_element fieldId field' doc)
      end
  end.

(** [validateForm] (lines 685-697). *)
Definition validateForm (doc : Document) : (JsError + bool) * Document :=
  validate_each requiredFields true doc.

(** ** Conversion while typing *)

(** A text input with its caret. *)
Record TextInput : Type := mkTextInput {
  text : jsstring;
  selectionStart : nat;
  selectionEnd : nat
}.

(** [handleNumberConversion] (lines 134-145), on the field [event.target]. *)
Definition handleNumberConversion (field : TextInput) : TextInput :=
  let cursorPosition := selectionStart field in
  let convertedValue := convertArabicToEnglishNumbers (text field) in
  if negb (jsstring_eqb (text field) convertedValue)
  then mkTextInput convertedValue
         (Nat.min cursorPosition (List.length convertedValue))
         (Nat.min cursorPosition (List.length convertedValue))
  else field.

(** ** Sample fields *)

Definition sample_input : TextInput :=
  mkTextInput [48; 49; 1634]%Z 3 3.

Definition sample_phone : Field :=
  mkField "phone" [32; 1632; 1633; 1633; 50; 32]%Z "#e2e8f0" [].

Definition sample_name_blank : Field :=
  mkField "name" [32; 9; 160]%Z "#e2e8f0" [].

Definition sample_form : Document :=
  [ mkField "name" [65]%Z "#e2e8f0" [];
    sample_phone;
    mkField "whatsapp" [] "#e2e8f0" [];
    mkField "quantity" [49]%Z "#e2e8f0" [];
    mkField "address" [32]%Z "#e2e8f0" [] ].

End Form.

(* ===================================================================== *)
(** * script.js: the notification ticker (lines 174-418) *)
(* ===================================================================== *)

Module Notifications.

(** [isRushHour], on the value of [new Date().getHours()]. *)
Definition isRushHour (hour : Z) : bool :=
  ((hour >=? 18)%Z && (hour <=? 23)%Z) || ((hour >=? 20)%Z && (hour <=? 24)%Z).

(** ** The queue of visible notifications (lines 174-182, 301-339, 394-412)

    A notification element is represented by the number of its creation;
    what it displays plays no part in the queue. *)
Record Ticker : Type := mkTicker {
  isActive : bool;
  (** [notificationQueue], in order *)
  notificationQueue : list nat;
  (** the children of the container element, in document order *)
  container : list nat;
  (** the elements that carry the class 'hide' *)
  hidden : list nat;
  (** the number the next element created gets *)
  next_element : nat
}.

Definition maxNotifications : nat := 1.

(** [array.splice(array.indexOf(x), 1)], guarded by [index > -1]: the first
    occurrence of [x], if any, is removed. *)
Fixpoint remove_first (x : nat) (l : list nat) : list nat :=
  match l with
  | [] => []
  | y :: l' => if Nat.eqb x y then l' else y :: remove_first x l'
  end.

(** [showNotification]: nothing while paused or while the queue is full;
    otherwise a new element is appended to the container and pushed on the
    queue. *)
Definition showNotification (t : Ticker) : Ticker :=
  if negb (isActive t) ||
     (maxNotifications <=? List.length (notificationQueue t))%nat
  then t
  else mkTicker (isActive t)
         (notificationQueue t ++ [next_element t])
         (container t ++ [next_element t])
         (hidden t) (S (next_element t)).

(** [hideNotification], the part that runs at once: the class 'hide'. *)
Definition hideNotification (n : nat) (t : Ticker) : Ticker :=
  mkTicker (isActive t) (notificationQueue t) (container t)
    (n :: hidden t) (next_element t).

(** [hideNotification], the part that runs 400 ms later: the element leaves
    its parent, if it has one, and the queue, if it is in it. *)
Definition removeNotification (n : nat) (t : Ticker) : Ticker :=
  mkTicker (isActive t) (remove_first n (notificationQueue t))
    (remove_first n (container t)) (hidden t) (next_element t).

Definition pauseNotifications (t : Ticker) : Ticker :=
  fold_left (fun acc n => hideNotification n acc) (notificationQueue t)
    (mkTicker false (notificationQueue t) (container t) (hidden t)
       (next_element t)).

(** [resumeNotifications]; the timer it sets ends in a [showNotification]. *)
Definition resumeNotifications (t : Ticker) : Ticker :=
  mkTicker true (notificationQueue t) (container t) (hidden t)
    (next_element t).

(** What can happen to the ticker: a timer reaching [showNotification], the
    two timers of a notification firing, focus entering and leaving the
    order form. *)
Inductive TickerAction : Type :=
| Show
| HideTimer (n : nat)
| RemoveTimer (n : nat)
| Pause
| Resume.

Definition ticker_step (t : Ticker) (a : TickerAction) : Ticker :=
  match a with
  | Show => showNotification t
  | HideTimer n => hideNotification n t
  | RemoveTimer n => removeNotification n t
  | Pause => pauseNotifications t
  | Resume => resumeNotifications t
  end.

(** The ticker as the constructor leaves it. *)
Definition new_ticker : Ticker := mkTicker true [] [] [] 0.

End Notifications.

(* ===================================================================== *)
(** * Properties of script.js *)
(* ===================================================================== *)

Module ScriptFacts.
Import Script.

(** ** Numeral conversion *)

Lemma replace_global_single (p r : Z) (s : jsstring) :
  replace_global [p] [r] s = map (fun c => if Z.eqb p c then r else c) s.
Proof.
  unfold replace_global.
  induction s as [|c s IH]; [reflexivity|].
  cbn [replace_global_from starts_with List.length map].
  rewrite andb_true_r.
  destruct (Z.eqb p c); cbn [app]; rewrite IH; reflexivity.
Qed.

Lemma digit_to_english_chain (c : Z) :
  fold_left
    (fun x i =>
       match nth i arabicNumbers [], nth i englishNumbers [] with
       | [p], [r] => if Z.eqb p x then r else x
       | _, _ => x
       end)
    (seq 0 (List.length arabicNumbers)) c
  = digit_to_english c.
Proof.
  unfold digit_to_english.
  destruct (Z.leb_spec 1632 c) as [Hlo|Hlo];
    [destruct (Z.leb_spec c 1641) as [Hhi|Hhi]|]; cbn [andb].
  - assert (Hc : (c = 1632 \/ c = 1633 \/ c = 1634 \/ c = 1635 \/ c = 1636 \/
                 c = 1637 \/ c = 1638 \/ c = 1639 \/ c = 1640 \/ c = 1641)%Z)
      by lia.
    repeat (destruct Hc as [Hc|Hc]; [subst c; reflexivity|]).
    subst c; reflexivity.
  - cbn -[Z.eqb].
    repeat (rewrite (proj2 (Z.eqb_neq _ c)) by lia; cbn -[Z.eqb]).
    reflexivity.
  - cbn -[Z.eqb].
    repeat (rewrite (proj2 (Z.eqb_neq _ c)) by lia; cbn -[Z.eqb]).
    reflexivity.
Qed.

Lemma convert_is_map (input : jsstring) :
  convertArabicToEnglishNumbers input = map digit_to_english input.
Proof.
  unfold convertArabicToEnglishNumbers. cbn [arabicNumbers List.length seq fold_left nth englishNumbers].
  rewrite !replace_global_single, !map_map.
  apply map_ext. intro c.
  rewrite <- digit_to_english_chain. reflexivity.
Qed.

Lemma digit_to_english_idem (c : Z) :
  digit_to_english (digit_to_english c) = digit_to_english c.
Proof.
  unfold digit_to_english.
  destruct (Z.leb_spec 1632 c); destruct (Z.leb_spec c 1641); cbn;
    repeat match goal with
           | |- context [Z.leb ?a ?b] => destruct (Z.leb_spec a b); cbn
           end; lia.
Qed.

(** C10. For every input string, [convertArabicToEnglishNumbers] maps each
    code unit on its own: an Arabic-Indic digit U+0660..U+0669 becomes the
    ASCII digit of the same value and every other code unit is kept, so
    length and order are preserved; converting twice is converting once. *)
Theorem convertArabicToEnglishNumbers_spec (input : jsstring) :
  convertArabicToEnglishNumbers input
  = map (fun c => if (1632 <=? c)%Z && (c <=? 1641)%Z
                  then (c - 1632 + 48)%Z else c) input
  /\ List.length (convertArabicToEnglishNumbers input) = List.length input
  /\ convertArabicToEnglishNumbers (convertArabicToEnglishNumbers input)
     = convertArabicToEnglishNumbers input.
Proof.
  rewrite !convert_is_map. repeat split.
  - apply length_map.
  - rewrite map_map. apply map_ext. intro c. apply digit_to_english_idem.
Qed.

Example convert_phone :
  convertArabicToEnglishNumbers
    [1632; 1633; 1632; 49; 1634; 1635; 32; 1641; 1776]%Z
  = [48; 49; 48; 49; 50; 51; 32; 57; 1776]%Z.
Proof. reflexivity. Qed.

(** ** Webhook submission *)

(** [!error.name] is a boolean, so it is never strictly equal to a string. *)
Lemma not_name_is_abort_false (error : JsError) :
  not_name_is_abort error = false.
Proof. reflexivity. Qed.

Lemma sendToMakeWebhook_single_attempt net formData retryCount :
  fst (sendToMakeWebhook net formData retryCount) = [EvPost formData retryCount].
Proof.
  funelim (sendToMakeWebhook net formData retryCount); reflexivity.
Qed.

(** C7. The code at the failing input: the first POST fails with a network
    error, well inside the 10-second limit, and the function resolves with a
    failure after that single POST, without waiting and without a second
    attempt; the same holds for a response that is not ok. *)
Theorem sendToMakeWebhook_never_retries :
  sendToMakeWebhook (fun _ => FailsAfter 50 "Failed to fetch") "{}" 0
  = ([EvPost "{}" 0], Failure "Failed to fetch")
  /\ sendToMakeWebhook (fun _ => Responds 50 500 "oops") "{}" 0
     = ([EvPost "{}" 0], Failure ("خطأ HTTP: " ++ "500"))
  /\ forall net formData,
       posts (fst (sendToMakeWebhook net formData 0)) = 1
       /\ waits (fst (sendToMakeWebhook net formData 0)) = 0.
Proof.
  split; [reflexivity|]. split; [reflexivity|].
  intros net formData. rewrite sendToMakeWebhook_single_attempt.
  split; reflexivity.
Qed.

End ScriptFacts.

(* ===================================================================== *)
(** * Properties of sw.js *)
(* ===================================================================== *)

Module SWFacts.
Import SW Inputs.

(** ** Association-list facts *)

Lemma filter_all {A : Type} (f : A -> bool) (l : list A) :
  (forall x, In x l -> f x = true) -> filter f l = l.
Proof.
  induction l as [|a l IH]; intro H; [reflexivity|].
  cbn. rewrite (H a (or_introl eq_refl)), IH; [reflexivity|].
  intros x Hx. apply H. right. exact Hx.
Qed.

Lemma filter_none {A : Type} (f : A -> bool) (l : list A) :
  (forall x, In x l -> f x = false) -> filter f l = [].
Proof.
  induction l as [|a l IH]; intro H; [reflexivity|].
  cbn. rewrite (H a (or_introl eq_refl)). apply IH.
  intros x Hx. apply H. right. exact Hx.
Qed.

Lemma filter_twice {A : Type} (f g : A -> bool) (l : list A) :
  filter f (filter g l) = filter (fun x => g x && f x) l.
Proof.
  induction l as [|a l IH]; [reflexivity|].
  cbn. destruct (g a); cbn; [destruct (f a)|]; rewrite IH; reflexivity.
Qed.

Lemma entries_match_app key (c d : Cache) :
  entries_match key (c ++ d) =
  match entries_match key c with
  | Some r => Some r
  | None => entries_match key d
  end.
Proof.
  unfold entries_match.
  induction c as [|[k r] c IH]; [cbn; destruct (option_map _ _); reflexivity|].
  cbn. destruct (String.eqb k key); [reflexivity|exact IH].
Qed.

Lemma entries_match_remove key (c : Cache) :
  entries_match key (entries_remove key c) = None.
Proof.
  unfold entries_match, entries_remove.
  induction c as [|[k r] c IH]; [reflexivity|].
  cbn. destruct (String.eqb k key) eqn:E; cbn; [exact IH|].
  rewrite E. exact IH.
Qed.

Lemma entries_match_put key r (c : Cache) :
  entries_match key (entries_put key r c) = Some r.
Proof.
  unfold entries_put. rewrite entries_match_app, entries_match_remove.
  unfold entries_match. cbn. rewrite String.eqb_refl. reflexivity.
Qed.

Lemma storage_has_find name (st : CacheStorage) :
  storage_has name st = false -> storage_find name st = None.
Proof.
  unfold storage_has, storage_find.
  induction st as [|[n c] st IH]; [reflexivity|].
  cbn. destruct (String.eqb n name); [discriminate|exact IH].
Qed.

Lemma storage_find_app name (st st' : CacheStorage) :
  storage_find name (st ++ st') =
  match storage_find name st with
  | Some c => Some c
  | None => storage_find name st'
  end.
Proof.
  unfold storage_find.
  induction st as [|[n c] st IH]; [cbn; destruct (option_map _ _); reflexivity|].
  cbn. destruct (String.eqb n name); [reflexivity|exact IH].
Qed.

Lemma storage_has_app name (st st' : CacheStorage) :
  storage_has name (st ++ st') = storage_has name st || storage_has name st'.
Proof. unfold storage_has. apply existsb_app. Qed.

Lemma storage_has_open name (st : CacheStorage) :
  storage_has name (storage_open name st) = true.
Proof.
  unfold storage_open. destruct (storage_has name st) eqn:E; [exact E|].
  rewrite storage_has_app. cbn. rewrite String.eqb_refl.
  apply orb_true_iff. right. reflexivity.
Qed.

Lemma storage_has_open_other name other (st : CacheStorage) :
  storage_has name st = true -> storage_has name (storage_open other st) = true.
Proof.
  intro H. unfold storage_open. destruct (storage_has other st); [exact H|].
  rewrite storage_has_app, H. reflexivity.
Qed.

(** Opening a namespace adds no entry to any namespace. *)
Lemma namespace_entry_open opened name key (st : CacheStorage) :
  namespace_entry name key (storage_open opened st) = namespace_entry name key st.
Proof.
  unfold namespace_entry, storage_open.
  destruct (storage_has opened st) eqn:E; [reflexivity|].
  rewrite storage_find_app.
  destruct (storage_find name st) as [c|] eqn:F; [reflexivity|].
  unfold storage_find. cbn. destruct (String.eqb opened name); reflexivity.
Qed.

Lemma storage_has_update name other f (st : CacheStorage) :
  storage_has name (storage_update other f st) = storage_has name st.
Proof.
  unfold storage_has, storage_update.
  induction st as [|[n c] st IH]; [reflexivity|].
  cbn. destruct (String.eqb n other); cbn; rewrite IH; reflexivity.
Qed.

Lemma storage_find_update name f (st : CacheStorage) :
  storage_find name (storage_update name f st) =
  option_map f (storage_find name st).
Proof.
  unfold storage_find, storage_update.
  induction st as [|[n c] st IH]; [reflexivity|].
  cbn. destruct (String.eqb n name) eqn:E; cbn; rewrite E; [reflexivity|exact IH].
Qed.

Lemma namespace_entry_put name key r (st : CacheStorage) :
  storage_has name st = true ->
  namespace_entry name key (storage_update name (entries_put key r) st) = Some r.
Proof.
  intro H. unfold namespace_entry. rewrite storage_find_update.
  destruct (storage_find name st) as [c|] eqn:F.
  - cbn. apply entries_match_put.
  - exfalso. revert H F. unfold storage_has, storage_find.
    induction st as [|[n c] st IH]; [discriminate|].
    cbn. destruct (String.eqb n name); [discriminate|exact IH].
Qed.

Lemma storage_has_settle name (ps : list PendingPut) (st : CacheStorage) :
  storage_has name (fold_left apply_put ps st) = storage_has name st.
Proof.
  revert st. induction ps as [|p ps IH]; intro st; [reflexivity|].
  cbn [fold_left]. rewrite IH. apply storage_has_update.
Qed.

(** Once the writes have settled, the namespace holds the response of the
    write issued last. *)
Lemma settle_last name key r (ps : list PendingPut) (st : CacheStorage) tr :
  storage_has name st = true ->
  namespace_entry name key
    (caches (settle (mkWorld st (ps ++ [mkPending name key r]) tr))) = Some r.
Proof.
  intro H. unfold settle. cbn [caches pending].
  rewrite fold_left_app. cbn [fold_left]. unfold apply_put at 1.
  cbn [pp_cache pp_key pp_response].
  apply namespace_entry_put. rewrite storage_has_settle. exact H.
Qed.

(** ** The fetch handlers *)

(** Unfolds a handler down to the world it returns. *)
Ltac run_handler :=
  unfold handleStaticAsset, handleImageRequest, handleAPIRequest,
    handleHTMLRequest, try_catch, bind, ret, throw, caches_match, fetch,
    caches_open, cache_put, clone, emit, with_caches;
  cbn [caches pending trace fst snd].

Lemma same_entries_refl_trace st ps tr tr' :
  same_entries (mkWorld st ps tr) (mkWorld st ps tr').
Proof. split; reflexivity. Qed.

Lemma same_entries_open name st ps tr tr' :
  same_entries (mkWorld st ps tr) (mkWorld (storage_open name st) ps tr').
Proof.
  split; [reflexivity|]. intros n k. cbn [caches]. apply namespace_entry_open.
Qed.

(** C1 (as amended). [handleStaticAsset] is cache-first: a cached entry is
    returned without touching the network; on a miss the request is fetched
    and the response is returned.  [cache.put] is called on the static
    namespace exactly when the response is ok, and a write is issued exactly
    when it is ok and the cache accepts it (status other than 206, no
    [Vary: *]): then the namespace holds it once the write has settled, and
    otherwise no namespace gains or changes an entry.  When the fetch throws
    on a miss the handler does not reject: it catches the error and resolves
    with the result of a second cache lookup, which is [undefined]. *)
Theorem handleStaticAsset_cache_first
  (net : Network) (request : Request) (w : World) :
  let (o, w') := handleStaticAsset net request w in
  match storage_match (url request) (caches w) with
  | Some cached =>
      o = Fulfilled (Some cached) /\
      caches w' = caches w /\ pending w' = pending w /\
      trace w' = trace w ++ [EvMatch (url request)]
  | None =>
      match net request with
      | NetResponse resp =>
          o = Fulfilled (Some resp) /\
          caches w' = storage_open CACHE_STATIC_NAME (caches w) /\
          trace w' =
            trace w ++
            [EvMatch (url request); EvFetch request;
             EvOpen CACHE_STATIC_NAME] ++
            (if ok resp
             then [EvPut CACHE_STATIC_NAME (url request) resp]
             else []) /\
          pending w' =
            pending w ++
            (if ok resp && cache_accepts resp
             then [mkPending CACHE_STATIC_NAME (url request) resp]
             else []) /\
          (if ok resp && cache_accepts resp
           then namespace_entry CACHE_STATIC_NAME (url request)
                  (caches (settle w')) = Some resp
           else same_entries w w')
      | NetFailure e =>
          o = Fulfilled None /\
          caches w' = caches w /\ pending w' = pending w
      end
  end.
Proof.
  destruct w as [st ps tr]. run_handler.
  destruct (storage_match (url request) st) as [cached|] eqn:Hm.
  - repeat split.
  - destruct (net request) as [resp|e]; cbn [caches pending trace].
    + destruct (ok resp); cbn [caches pending trace andb].
      * destruct (cache_accepts resp); rewrite <- !app_assoc;
          cbn [caches pending trace app].
        -- repeat split. apply settle_last. apply storage_has_open.
        -- rewrite app_nil_r. repeat split.
           intros n k. cbn [caches]. apply namespace_entry_open.
      * rewrite !app_nil_r, <- !app_assoc. repeat split.
        intros n k. cbn [caches]. apply namespace_entry_open.
    + rewrite Hm. repeat split.
Qed.

(** C1, the claim as stated fails: offline and with nothing cached, the
    handler resolves with [undefined] instead of rejecting. *)
Lemma handleStaticAsset_swallows_failure :
  storage_match (url (get "https://police288.example/styles.css"))
    (caches empty_world) = None
  /\ fst (handleStaticAsset offline
            (get "https://police288.example/styles.css") empty_world)
     = Fulfilled None
  /\ forall e,
       fst (handleStaticAsset offline
              (get "https://police288.example/styles.css") empty_world)
       <> Rejected e.
Proof. repeat split. intros e H. discriminate H. Qed.

(** The API handler on its own is network-only: every invocation issues
    one fetch and nothing else, resolves with the response when the fetch
    resolves and rejects with the same error when it rejects; two
    consecutive invocations for the same URL each hit the network and leave
    the caches and the issued writes as they were. *)
Lemma handleAPIRequest_network_only
  (net1 net2 : Network) (request : Request) (w : World) :
  isAPIRequest (url request) = true ->
  let (o1, w1) := handleAPIRequest net1 request w in
  let (o2, w2) := handleAPIRequest net2 request w1 in
  o1 = match net1 request with
       | NetResponse r => Fulfilled (Some r)
       | NetFailure e => Rejected e
       end /\
  o2 = match net2 request with
       | NetResponse r => Fulfilled (Some r)
       | NetFailure e => Rejected e
       end /\
  trace w1 = trace w ++ [EvFetch request] /\
  trace w2 = trace w ++ [EvFetch request; EvFetch request] /\
  caches w1 = caches w /\ pending w1 = pending w /\
  caches w2 = caches w /\ pending w2 = pending w.
Proof.
  intros _. destruct w as [st ps tr]. run_handler.
  destruct (net1 request); destruct (net2 request);
    cbn [caches pending trace]; rewrite <- app_assoc; repeat split.
Qed.

Lemma handleAPIRequest_witness :
  let request := get "https://analytics.tiktok.com/api/v2/pixel/track" in
  let (o1, w1) := handleAPIRequest (serves page_200) request empty_world in
  let (o2, w2) := handleAPIRequest offline request w1 in
  o1 = Fulfilled (Some page_200) /\
  o2 = Rejected (mkError "TypeError" "Failed to fetch") /\
  trace w1 = [EvFetch request] /\
  trace w2 = [EvFetch request; EvFetch request] /\
  caches w1 = [] /\ pending w1 = [] /\ caches w2 = [] /\ pending w2 = [].
Proof.
  exact (handleAPIRequest_network_only (serves page_200) offline
           (get "https://analytics.tiktok.com/api/v2/pixel/track")
           empty_world eq_refl).
Defined.

(** The image handler on its own: when the fetch throws and no cache holds
    the request, [handleImageRequest] resolves (it does not reject) with the
    placeholder: an ok response whose body is the inline SVG and whose
    Content-Type is image/svg+xml; the caches are untouched. *)
Lemma handleImageRequest_placeholder
  (net : Network) (request : Request) (w : World) (e : JsError) :
  isImageRequest (url request) = true ->
  net request = NetFailure e ->
  storage_match (url request) (caches w) = None ->
  fst (handleImageRequest net request w) = Fulfilled (Some placeholder) /\
  same_entries w (snd (handleImageRequest net request w)) /\
  header "Content-Type" placeholder = Some "image/svg+xml" /\
  String.prefix "<svg xmlns=" (body placeholder) = true /\
  ends_with "</svg>" (body placeholder) = true /\
  ok placeholder = true.
Proof.
  intros _ Hnet Hmiss. destruct w as [st ps tr]. run_handler.
  cbn [caches] in Hmiss. rewrite Hmiss, Hnet. cbn [caches pending trace fst snd].
  rewrite Hmiss. cbn [fst snd].
  split; [reflexivity|]. split; [apply same_entries_refl_trace|].
  repeat split.
Qed.

Lemma handleImageRequest_witness :
  fst (handleImageRequest offline
         (get "https://police288.example/public/images/box.PNG") empty_world)
  = Fulfilled (Some placeholder).
Proof.
  exact (proj1 (handleImageRequest_placeholder offline
                  (get "https://police288.example/public/images/box.PNG")
                  empty_world (mkError "TypeError" "Failed to fetch")
                  eq_refl eq_refl eq_refl)).
Defined.

(** C5 (as amended). Whenever [handleHTMLRequest] is invoked, it is
    network-first.  When the fetch resolves, its response is what the handler
    returns; when that response is ok, [cache.put] of it on the dynamic
    namespace, under the request URL, is called before the handler returns,
    but it is not awaited: if the cache accepts the response (status other
    than 206, no [Vary: *]) the write is issued and the namespace holds the
    response once the write has settled, and otherwise no namespace gains or
    changes an entry.  When the fetch throws, the handler resolves with the
    cached copy of the request if there is one, and otherwise with the
    result of looking up the resolved '/index.html' in the caches: the
    cached fallback document, or [undefined] when it was never cached. *)
Theorem handleHTMLRequest_network_first
  (origin : string) (net : Network) (request : Request) (w : World) :
  let (o, w') := handleHTMLRequest origin net request w in
  match net request with
  | NetResponse resp =>
      o = Fulfilled (Some resp) /\
      if ok resp then
        caches w' = storage_open CACHE_DYNAMIC_NAME (caches w) /\
        trace w' =
          trace w ++ [EvFetch request; EvOpen CACHE_DYNAMIC_NAME;
                      EvPut CACHE_DYNAMIC_NAME (url request) resp] /\
        if cache_accepts resp then
          pending w' =
            pending w ++ [mkPending CACHE_DYNAMIC_NAME (url request) resp] /\
          namespace_entry CACHE_DYNAMIC_NAME (url request) (caches (settle w'))
          = Some resp
        else same_entries w w'
      else same_entries w w'
  | NetFailure e =>
      caches w' = caches w /\ pending w' = pending w /\
      o = Fulfilled
            match storage_match (url request) (caches w) with
            | Some cached => Some cached
            | None => storage_match (resolve origin "/index.html") (caches w)
            end
  end.
Proof.
  destruct w as [st ps tr]. run_handler.
  destruct (net request) as [resp|e]; cbn [caches pending trace].
  - destruct (ok resp); cbn [caches pending trace].
    + split; [reflexivity|]. rewrite <- !app_assoc.
      split; [reflexivity|]. split; [reflexivity|].
      destruct (cache_accepts resp).
      * split; [reflexivity|]. apply settle_last. apply storage_has_open.
      * rewrite app_nil_r. apply same_entries_open.
    + split; [reflexivity|]. apply same_entries_refl_trace.
  - destruct (storage_match (url request) st); repeat split.
Qed.

(** C5, the claim as stated fails twice.  With an ok response, the dynamic
    namespace holds no entry for the request when the handler returns (the
    write is only pending).  Offline with nothing cached, not even
    '/index.html', the handler resolves with [undefined]: no fallback
    document is served. *)
Lemma handleHTMLRequest_counterexample :
  (ok page_200 = true /\
   fst (handleHTMLRequest example_origin (serves page_200)
          (get "https://police288.example/offers") empty_world)
   = Fulfilled (Some page_200) /\
   namespace_entry CACHE_DYNAMIC_NAME "https://police288.example/offers"
     (caches (snd (handleHTMLRequest example_origin (serves page_200)
                     (get "https://police288.example/offers") empty_world)))
   = None)
  /\
  (storage_match "https://police288.example/offers" (caches empty_world) = None /\
   fst (handleHTMLRequest example_origin offline
          (get "https://police288.example/offers") empty_world)
   = Fulfilled None).
Proof. repeat split. Qed.

(** C9. When the fetch resolves with a response that is not ok, each of the
    three caching handlers returns that very response and issues no cache
    write: no namespace gains or changes an entry.  The image and the page
    handler leave the cache storage as it is; the static handler has opened
    the static namespace by then, which creates it, empty, if it was
    missing.  (For the two cache-first handlers the fetch happens only on a
    cache miss.) *)
Theorem not_ok_response_is_not_cached
  (origin : string) (net : Network) (request : Request) (w : World)
  (resp : Response) :
  net request = NetResponse resp ->
  ok resp = false ->
  (storage_match (url request) (caches w) = None ->
   fst (handleStaticAsset net request w) = Fulfilled (Some resp) /\
   same_entries w (snd (handleStaticAsset net request w)) /\
   caches (snd (handleStaticAsset net request w)) =
   storage_open CACHE_STATIC_NAME (caches w)) /\
  (storage_match (url request) (caches w) = None ->
   fst (handleImageRequest net request w) = Fulfilled (Some resp) /\
   same_entries w (snd (handleImageRequest net request w)) /\
   caches (snd (handleImageRequest net request w)) = caches w) /\
  (fst (handleHTMLRequest origin net request w) = Fulfilled (Some resp) /\
   same_entries w (snd (handleHTMLRequest origin net request w)) /\
   caches (snd (handleHTMLRequest origin net request w)) = caches w).
Proof.
  intros Hnet Hok. destruct w as [st ps tr]. run_handler.
  split; [|split]; [intro Hmiss; rewrite Hmiss| intro Hmiss; rewrite Hmiss|];
    rewrite Hnet; cbn [caches pending trace fst snd]; rewrite Hok;
    cbn [caches pending trace fst snd]; (split; [reflexivity|]);
    (split; [|reflexivity]).
  - apply same_entries_open.
  - apply same_entries_refl_trace.
  - apply same_entries_refl_trace.
Qed.

Lemma not_ok_response_is_not_cached_witness :
  (fst (handleStaticAsset (serves page_404)
          (get "https://police288.example/missing") empty_world)
   = Fulfilled (Some page_404) /\
   same_entries empty_world
     (snd (handleStaticAsset (serves page_404)
             (get "https://police288.example/missing") empty_world))) /\
  (fst (handleImageRequest (serves page_404)
          (get "https://police288.example/missing") empty_world)
   = Fulfilled (Some page_404) /\
   same_entries empty_world
     (snd (handleImageRequest (serves page_404)
             (get "https://police288.example/missing") empty_world))) /\
  (fst (handleHTMLRequest example_origin (serves page_404)
          (get "https://police288.example/missing") empty_world)
   = Fulfilled (Some page_404) /\
   same_entries empty_world
     (snd (handleHTMLRequest example_origin (serves page_404)
             (get "https://police288.example/missing") empty_world))).
Proof.
  destruct (not_ok_response_is_not_cached example_origin (serves page_404)
              (get "https://police288.example/missing") empty_world page_404
              eq_refl eq_refl) as [Hstatic [Himage Hhtml]].
  destruct (Hstatic eq_refl) as [Hs1 [Hs2 _]].
  destruct (Himage eq_refl) as [Hi1 [Hi2 _]].
  destruct Hhtml as [Hh1 [Hh2 _]].
  exact (conj (conj Hs1 Hs2) (conj (conj Hi1 Hi2) (conj Hh1 Hh2))).
Defined.

(** ** Activation *)

Lemma activate_deletions (names : list string) (w : World) :
  exists l tr,
    promise_all
      (map (fun cacheName =>
              if is_old_cache cacheName
              then bind (caches_delete cacheName) (fun _ => ret tt)
              else ret tt) names) w
    = (Fulfilled l,
       mkWorld (fold_left delete_if_old names (caches w)) (pending w) tr).
Proof.
  set (f := fun cacheName : string => _).
  revert w. induction names as [|n names IH]; intros [st ps tr].
  - exists [], tr. reflexivity.
  - cbn [map promise_all fold_left caches pending]. unfold delete_if_old at 2.
    unfold f at 1. destruct (is_old_cache n).
    + unfold bind, caches_delete, ret, emit, with_caches.
      cbn [caches pending trace].
      destruct (IH (mkWorld (storage_delete n st) ps (tr ++ [EvDelete n])))
        as [l [tr' E]].
      rewrite E. cbn [caches pending]. eexists; eexists; reflexivity.
    + unfold ret at 1.
      destruct (IH (mkWorld st ps tr)) as [l [tr' E]].
      rewrite E. cbn [caches pending]. eexists; eexists; reflexivity.
Qed.

Lemma fold_delete_is_filter (names : list string) (st : CacheStorage) :
  fold_left delete_if_old names st =
  filter (fun n => negb (existsb (fun name => is_old_cache name &&
                                              String.eqb (fst n) name) names))
         st.
Proof.
  revert st. induction names as [|name names IH]; intro st.
  - cbn. symmetry. apply filter_all. reflexivity.
  - cbn [fold_left existsb]. rewrite IH. unfold delete_if_old.
    destruct (is_old_cache name); cbn [andb orb].
    + unfold storage_delete. rewrite filter_twice.
      apply filter_ext. intro n. rewrite negb_orb. reflexivity.
    + reflexivity.
Qed.

(** What activation leaves of the cache storage: the namespaces that are not
    old versions of this application, in their order and with their
    content. *)
Lemma activate_caches (w : World) :
  fst (activate w) = Fulfilled tt /\
  pending (snd (activate w)) = pending w /\
  caches (snd (activate w)) =
  filter (fun n => negb (is_old_cache (fst n))) (caches w).
Proof.
  destruct w as [st ps tr].
  destruct (activate_deletions (map fst st) (mkWorld st ps (tr ++ [EvKeys])))
    as [l [tr' E]].
  unfold activate. revert E. set (f := fun cacheName : string => _). intro E.
  unfold bind, caches_keys, clients_claim, emit.
  cbn [caches pending trace] in *. rewrite E. cbn [fst snd caches pending trace].
  repeat split. rewrite fold_delete_is_filter.
  assert (Hext : forall st0 : CacheStorage,
             (forall n, In n st0 -> In (fst n) (map fst st)) ->
             filter (fun n => negb (existsb (fun name => is_old_cache name &&
                                       String.eqb (fst n) name) (map fst st))) st0
             = filter (fun n => negb (is_old_cache (fst n))) st0).
  { induction st0 as [|a st0 IH0]; intro Hin; [reflexivity|].
    cbn [filter].
    assert (Ha : existsb (fun name => is_old_cache name && String.eqb (fst a) name)
                   (map fst st) = is_old_cache (fst a)).
    { destruct (is_old_cache (fst a)) eqn:Eo.
      - apply existsb_exists. exists (fst a). split.
        + apply Hin. left. reflexivity.
        + rewrite Eo, String.eqb_refl. reflexivity.
      - apply not_true_is_false. intro Hex.
        apply existsb_exists in Hex. destruct Hex as [x [_ Hx]].
        apply andb_true_iff in Hx. destruct Hx as [Hx1 Hx2].
        apply String.eqb_eq in Hx2. subst x. congruence. }
    rewrite Ha, IH0; [reflexivity|].
    intros n Hn. apply Hin. right. exact Hn. }
  apply Hext. intros n Hn. apply in_map. exact Hn.
Qed.

Lemma storage_has_filter name (f : string * Cache -> bool) (st : CacheStorage) :
  (forall c, f (name, c) = false) -> storage_has name (filter f st) = false.
Proof.
  intro Hf. unfold storage_has. induction st as [|[n c] st IH]; [reflexivity|].
  cbn [filter]. destruct (f (n, c)) eqn:E; [|exact IH].
  cbn. rewrite IH. destruct (String.eqb n name) eqn:En; [|reflexivity].
  apply String.eqb_eq in En. subst n. rewrite Hf in E. discriminate.
Qed.

Lemma storage_find_filter name (f : string * Cache -> bool) (st : CacheStorage) :
  (forall c, f (name, c) = true) ->
  storage_find name (filter f st) = storage_find name st.
Proof.
  intro Hf. unfold storage_find. induction st as [|[n c] st IH]; [reflexivity|].
  cbn [filter find fst]. destruct (String.eqb n name) eqn:En.
  - apply String.eqb_eq in En. subst n. rewrite Hf. cbn. rewrite String.eqb_refl.
    reflexivity.
  - destruct (f (n, c)); [cbn; rewrite En|]; exact IH.
Qed.

(** C2. Whatever namespaces exist, once the activate handler has completed
    every namespace whose name starts with 'police288-' and is neither the
    current static nor the current dynamic name is gone, and every other
    namespace is found with the content it had; activating v2.1.0 on top of
    the v2.0.0 namespaces leaves exactly the two v2.1.0 namespaces. *)
Theorem activate_deletes_old_versions (w : World) :
  fst (activate w) = Fulfilled tt /\
  (forall name,
     String.prefix "police288-" name = true ->
     name <> CACHE_STATIC_NAME -> name <> CACHE_DYNAMIC_NAME ->
     storage_has name (caches (snd (activate w))) = false) /\
  (forall name,
     String.prefix "police288-" name = false ->
     storage_find name (caches (snd (activate w))) =
     storage_find name (caches w)) /\
  (forall name,
     name = CACHE_STATIC_NAME \/ name = CACHE_DYNAMIC_NAME ->
     storage_find name (caches (snd (activate w))) =
     storage_find name (caches w)) /\
  (forall s0 d0 s1 d1 : Cache,
     caches w = [ ("police288-static-v2.0.0", s0);
                  ("police288-dynamic-v2.0.0", d0);
                  ("police288-static-v2.1.0", s1);
                  ("police288-dynamic-v2.1.0", d1) ] ->
     caches (snd (activate w)) = [ ("police288-static-v2.1.0", s1);
                                   ("police288-dynamic-v2.1.0", d1) ]).
Proof.
  destruct (activate_caches w) as [Ho [_ Hc]].
  split; [exact Ho|]. rewrite Hc. split; [|split; [|split]].
  - intros name Hp Hs Hd. apply storage_has_filter. intro c.
    cbn [fst]. unfold is_old_cache. rewrite Hp.
    apply String.eqb_neq in Hs. apply String.eqb_neq in Hd.
    rewrite Hs, Hd. reflexivity.
  - intros name Hp. apply storage_find_filter. intro c.
    cbn [fst]. unfold is_old_cache. rewrite Hp.
    rewrite andb_false_r. reflexivity.
  - intros name [Hn|Hn]; subst name; apply storage_find_filter; intro c;
      reflexivity.
  - intros s0 d0 s1 d1 Hw. rewrite Hw. reflexivity.
Qed.

(** ** Installation *)

Lemma storage_update_open name other f (st : CacheStorage) :
  String.eqb other name = false ->
  storage_update name f (storage_open other st) =
  storage_open other (storage_update name f st).
Proof.
  intro Hne. unfold storage_open. rewrite storage_has_update.
  destruct (storage_has other st); [reflexivity|].
  unfold storage_update. rewrite map_app. cbn. rewrite Hne. reflexivity.
Qed.

(** The install handler, run: its promise is fulfilled on both paths. *)
Lemma install_run (origin : string) (net : Network) (w : World) :
  install origin net w =
  match fetch_all net (manifest_requests origin) with
  | Some es =>
      (Fulfilled tt,
       mkWorld
         (storage_open CACHE_DYNAMIC_NAME
            (storage_update CACHE_STATIC_NAME (entries_put_all es)
               (storage_open CACHE_STATIC_NAME (caches w))))
         (pending w)
         (trace w ++ [EvOpen CACHE_STATIC_NAME; EvOpen CACHE_DYNAMIC_NAME;
                      EvAddAll CACHE_STATIC_NAME
                        (map url (manifest_requests origin));
                      EvSkipWaiting]))
  | None =>
      (Fulfilled tt,
       mkWorld
         (storage_open CACHE_DYNAMIC_NAME
            (storage_open CACHE_STATIC_NAME (caches w)))
         (pending w)
         (trace w ++ [EvOpen CACHE_STATIC_NAME; EvOpen CACHE_DYNAMIC_NAME;
                      EvAddAll CACHE_STATIC_NAME
                        (map url (manifest_requests origin))]))
  end.
Proof.
  destruct w as [st ps tr].
  unfold install, try_catch, bind, promise_all, caches_open, cache_addAll,
    skipWaiting, ret, emit, with_caches.
  fold (manifest_requests origin).
  cbn [caches pending trace].
  destruct (fetch_all net (manifest_requests origin)) as [es|];
    cbn [caches pending trace]; rewrite <- !app_assoc;
    [rewrite storage_update_open by reflexivity|]; reflexivity.
Qed.

(** C6. The code at the failing input: '/confirmation.html' cannot be
    fetched, so [cache.addAll] rejects and the static namespace stays empty,
    yet the promise handed to [event.waitUntil] is fulfilled (the trailing
    [catch] only logs), so the installation is not aborted; for every
    network the install promise is fulfilled. *)
Theorem install_never_rejects :
  fetch_all confirmation_unreachable (manifest_requests example_origin) = None
  /\ fst (install example_origin confirmation_unreachable empty_world)
     = Fulfilled tt
  /\ caches (snd (install example_origin confirmation_unreachable empty_world))
     = [ (CACHE_STATIC_NAME, []); (CACHE_DYNAMIC_NAME, []) ]
  /\ forall origin net w, fst (install origin net w) = Fulfilled tt.
Proof.
  split; [reflexivity|]. split; [reflexivity|]. split; [reflexivity|].
  intros origin net w. rewrite install_run.
  destruct (fetch_all net (manifest_requests origin)); reflexivity.
Qed.

(** ** Populating the static namespace twice *)

Lemma count_key_app key (c d : Cache) :
  count_key key (c ++ d) = count_key key c + count_key key d.
Proof. unfold count_key. rewrite filter_app, length_app. reflexivity. Qed.

Lemma count_key_remove_same key (c : Cache) :
  count_key key (entries_remove key c) = 0.
Proof.
  unfold count_key, entries_remove. rewrite filter_twice, filter_none;
    [reflexivity|].
  intros e _. destruct (String.eqb (fst e) key); reflexivity.
Qed.

Lemma count_key_remove_other key k (c : Cache) :
  String.eqb k key = false ->
  count_key key (entries_remove k c) = count_key key c.
Proof.
  intro Hk. unfold count_key, entries_remove. rewrite filter_twice.
  f_equal. apply filter_ext. intro e.
  destruct (String.eqb (fst e) key) eqn:E; [|apply andb_false_r].
  apply String.eqb_eq in E. rewrite E, String.eqb_sym, Hk. reflexivity.
Qed.

Lemma count_key_put key k r (c : Cache) :
  count_key key (entries_put k r c) =
  if String.eqb k key then 1 else count_key key c.
Proof.
  unfold entries_put. rewrite count_key_app.
  destruct (String.eqb k key) eqn:E.
  - apply String.eqb_eq in E. subst k. rewrite count_key_remove_same.
    unfold count_key. cbn. rewrite String.eqb_refl. reflexivity.
  - rewrite (count_key_remove_other _ _ _ E).
    unfold count_key at 2. cbn. rewrite E. cbn. lia.
Qed.

(** After a batch of puts every key of the batch has exactly one entry and
    the other keys have the entries they had. *)
Lemma count_key_put_all key (es : list (string * Response)) (c : Cache) :
  count_key key (entries_put_all es c) =
  if mem key (map fst es) then 1 else count_key key c.
Proof.
  unfold entries_put_all. revert c.
  induction es as [|[k r] es IH]; intro c; [reflexivity|].
  cbn [fold_left map fst snd]. rewrite IH, count_key_put.
  unfold mem. cbn [existsb].
  destruct (existsb (fun k0 => String.eqb k0 key) (map fst es));
    [rewrite orb_true_r; reflexivity|].
  rewrite orb_false_r. reflexivity.
Qed.

(** A batch of puts keeps the entries under other keys, in order, and
    appends what the batch builds from the empty cache. *)
Lemma entries_put_all_normal (es : list (string * Response)) (c : Cache) :
  entries_put_all es c =
  filter (fun e => negb (mem (fst e) (map fst es))) c ++ entries_put_all es [].
Proof.
  unfold entries_put_all. revert c.
  induction es as [|[k r] es IH]; intro c.
  - cbn. rewrite app_nil_r. symmetry. apply filter_all. reflexivity.
  - cbn [fold_left map fst snd].
    rewrite IH. rewrite (IH (entries_put k r [])).
    unfold entries_put at 1 3. cbn [entries_remove filter app].
    rewrite filter_app, <- app_assoc. f_equal.
    unfold entries_remove. rewrite filter_twice. apply filter_ext.
    intro e. unfold mem. cbn [existsb]. rewrite negb_orb.
    rewrite (String.eqb_sym k (fst e)). reflexivity.
Qed.

Lemma entries_put_all_keys (es : list (string * Response)) (c : Cache) e :
  In e (entries_put_all es c) ->
  In e c \/ mem (fst e) (map fst es) = true.
Proof.
  unfold entries_put_all. revert c.
  induction es as [|[k r] es IH]; intros c H; [left; exact H|].
  cbn [fold_left map fst snd] in H. apply IH in H.
  unfold mem. cbn [existsb map fst].
  destruct H as [H|H].
  - unfold entries_put in H. apply in_app_or in H. destruct H as [H|H].
    + left. unfold entries_remove in H. apply filter_In in H. apply H.
    + destruct H as [H|[]]. subst e. right. cbn [fst].
      rewrite String.eqb_refl. reflexivity.
  - right. unfold mem in H. rewrite H. apply orb_true_r.
Qed.

Lemma entries_put_all_idempotent (es : list (string * Response)) (c : Cache) :
  entries_put_all es (entries_put_all es c) = entries_put_all es c.
Proof.
  rewrite (entries_put_all_normal es c).
  rewrite (entries_put_all_normal es (_ ++ _)).
  rewrite filter_app, filter_twice.
  rewrite (filter_none _ (entries_put_all es [])).
  - rewrite app_nil_r. f_equal. apply filter_ext. intro e. apply andb_diag.
  - intros e He. apply entries_put_all_keys in He. destruct He as [[]|He].
    rewrite He. reflexivity.
Qed.

Lemma storage_open_idem name (st : CacheStorage) :
  storage_has name st = true -> storage_open name st = st.
Proof. intro H. unfold storage_open. rewrite H. reflexivity. Qed.

Lemma storage_update_twice name f (st : CacheStorage) :
  (forall c, f (f c) = f c) ->
  storage_update name f (storage_update name f st) = storage_update name f st.
Proof.
  intro Hf. unfold storage_update. rewrite map_map. apply map_ext.
  intros [n c]. cbn [fst snd]. destruct (String.eqb n name) eqn:E; cbn [fst snd];
    rewrite E; [rewrite Hf|]; reflexivity.
Qed.

Lemma storage_find_open_other name other (st : CacheStorage) :
  String.eqb other name = false ->
  storage_find name (storage_open other st) = storage_find name st.
Proof.
  intro Hne. unfold storage_open. destruct (storage_has other st); [reflexivity|].
  rewrite storage_find_app. destruct (storage_find name st); [reflexivity|].
  unfold storage_find. cbn. rewrite Hne. reflexivity.
Qed.

Lemma storage_find_open_same name (st : CacheStorage) :
  storage_find name (storage_open name st) =
  match storage_find name st with
  | Some c => Some c
  | None => Some []
  end.
Proof.
  unfold storage_open. destruct (storage_has name st) eqn:H.
  - destruct (storage_find name st) eqn:F; [reflexivity|].
    exfalso. revert H F. unfold storage_has, storage_find.
    induction st as [|[n c] st IH]; [discriminate|].
    cbn. destruct (String.eqb n name); [discriminate|exact IH].
  - rewrite storage_find_app, (storage_has_find _ _ H).
    unfold storage_find. cbn. rewrite String.eqb_refl. reflexivity.
Qed.

(** When every manifest request is answered with an ok response that the
    cache accepts, [cache.addAll] has one response per request, keyed by the
    request URL. *)
Lemma fetch_all_ok (net : Network) (requests : list Request) :
  (forall q, In q requests ->
     exists r, net q = NetResponse r /\ ok r = true /\
               cache_accepts r = true) ->
  exists es, fetch_all net requests = Some es /\ map fst es = map url requests.
Proof.
  induction requests as [|q requests IH]; intro H.
  - exists []. split; reflexivity.
  - destruct (H q (or_introl eq_refl)) as [r [Hr [Hok Hacc]]].
    destruct IH as [es [Hes Hk]]; [intros q' Hq'; apply H; right; exact Hq'|].
    exists ((url q, r) :: es). cbn [fetch_all]. rewrite Hr, Hok, Hacc, Hes.
    split; [reflexivity|]. cbn [map fst]. rewrite Hk. reflexivity.
Qed.

Lemma install_caches_idempotent (origin : string) (net : Network) (w : World) :
  caches (snd (install origin net (snd (install origin net w)))) =
  caches (snd (install origin net w)).
Proof.
  rewrite (install_run origin net w).
  destruct (fetch_all net (manifest_requests origin)) as [es|] eqn:F;
    cbn [snd]; rewrite install_run, F; cbn [snd caches].
  - rewrite (storage_open_idem CACHE_STATIC_NAME).
    + rewrite storage_update_open by reflexivity.
      rewrite storage_update_twice by apply entries_put_all_idempotent.
      apply storage_open_idem. apply storage_has_open.
    + apply storage_has_open_other. rewrite storage_has_update.
      apply storage_has_open.
  - rewrite (storage_open_idem CACHE_STATIC_NAME).
    + apply storage_open_idem. apply storage_has_open.
    + apply storage_has_open_other. apply storage_has_open.
Qed.

(** A batch of puts makes an earlier batch over the same keys invisible. *)
Lemma entries_put_all_absorb (es0 es : list (string * Response)) (c : Cache) :
  map fst es0 = map fst es ->
  entries_put_all es (entries_put_all es0 c) = entries_put_all es c.
Proof.
  intro Hk.
  rewrite (entries_put_all_normal es (entries_put_all es0 c)).
  rewrite (entries_put_all_normal es0 c), (entries_put_all_normal es c).
  rewrite filter_app, filter_twice, Hk.
  rewrite (filter_none _ (entries_put_all es0 [])).
  - rewrite app_nil_r. f_equal. apply filter_ext. intro e. apply andb_diag.
  - intros e He. apply entries_put_all_keys in He. destruct He as [[]|He].
    rewrite <- Hk, He. reflexivity.
Qed.

Lemma storage_update_absorb name f g (st : CacheStorage) :
  (forall c, f (g c) = f c) ->
  storage_update name f (storage_update name g st) = storage_update name f st.
Proof.
  intro Hfg. unfold storage_update. rewrite map_map. apply map_ext.
  intros [n c]. cbn [fst snd]. destruct (String.eqb n name) eqn:E; cbn [fst snd];
    rewrite E; [rewrite Hfg|]; reflexivity.
Qed.

Lemma fetch_all_keys (net : Network) (requests : list Request) es :
  fetch_all net requests = Some es -> map fst es = map url requests.
Proof.
  revert es. induction requests as [|q requests IH]; intros es H.
  - injection H as <-. reflexivity.
  - cbn [fetch_all] in H. destruct (net q) as [r|]; [|discriminate].
    destruct (ok r && cache_accepts r); [|discriminate].
    destruct (fetch_all net requests) as [es'|]; [|discriminate].
    injection H as <-. cbn [map fst]. rewrite (IH es' eq_refl). reflexivity.
Qed.

(** A successful run after an earlier run, whatever the earlier run met on
    the network, leaves what the successful run alone leaves. *)
Lemma install_after_install (origin : string) (net0 net : Network) (w : World) :
  fetch_all net (manifest_requests origin) <> None ->
  caches (snd (install origin net (snd (install origin net0 w)))) =
  caches (snd (install origin net w)).
Proof.
  intro Hok. rewrite (install_run origin net0 w), !(install_run origin net).
  destruct (fetch_all net (manifest_requests origin)) as [es|] eqn:F;
    [clear Hok|contradiction].
  destruct (fetch_all net0 (manifest_requests origin)) as [es0|] eqn:F0;
    cbn [snd caches].
  - rewrite (storage_open_idem CACHE_STATIC_NAME)
      by (apply storage_has_open_other; rewrite storage_has_update;
          apply storage_has_open).
    rewrite storage_update_open by reflexivity.
    rewrite storage_update_absorb.
    + apply storage_open_idem. apply storage_has_open.
    + intro c. apply entries_put_all_absorb.
      rewrite (fetch_all_keys _ _ _ F0), (fetch_all_keys _ _ _ F). reflexivity.
  - rewrite (storage_open_idem CACHE_STATIC_NAME)
      by (apply storage_has_open_other; apply storage_has_open).
    rewrite storage_update_open by reflexivity.
    apply storage_open_idem. apply storage_has_open.
Qed.

(** C8. When every manifest URL is fetched with an ok response that the
    cache accepts (status other than 206, no [Vary: *]), populating the
    static namespace from the manifest twice leaves the cache storage as one
    run leaves it (also when the earlier run met another network, [net0]),
    and the static namespace then holds exactly one entry under each
    manifest URL (resolved, query string included), while any other key has
    the entries it had before, so that a namespace without duplicates stays
    without duplicates. *)
Theorem install_twice_is_idempotent
  (origin : string) (net0 net : Network) (w : World) :
  (forall u, In u STATIC_CACHE_URLS ->
     exists r, net (new_Request origin u "reload") = NetResponse r /\
               ok r = true /\ cache_accepts r = true) ->
  caches (snd (install origin net (snd (install origin net w)))) =
  caches (snd (install origin net w)) /\
  caches (snd (install origin net (snd (install origin net0 w)))) =
  caches (snd (install origin net w)) /\
  (forall key,
     namespace_count CACHE_STATIC_NAME key
       (caches (snd (install origin net (snd (install origin net w))))) =
     if mem key (map (resolve origin) STATIC_CACHE_URLS) then 1
     else namespace_count CACHE_STATIC_NAME key (caches w)) /\
  ((forall key, namespace_count CACHE_STATIC_NAME key (caches w) <= 1) ->
   forall key,
     namespace_count CACHE_STATIC_NAME key
       (caches (snd (install origin net (snd (install origin net w))))) <= 1).
Proof.
  intro Hok.
  destruct (fetch_all_ok net (manifest_requests origin)) as [es [F Hk]].
  { intros q Hq. unfold manifest_requests in Hq. apply in_map_iff in Hq.
    destruct Hq as [u [Hu Hin]]. subst q. apply Hok. exact Hin. }
  assert (Hcount : forall key,
             namespace_count CACHE_STATIC_NAME key
               (caches (snd (install origin net (snd (install origin net w))))) =
             if mem key (map (resolve origin) STATIC_CACHE_URLS) then 1
             else namespace_count CACHE_STATIC_NAME key (caches w)).
  { intro key. rewrite install_caches_idempotent, install_run, F.
    cbn [snd caches]. unfold namespace_count.
    rewrite storage_find_open_other by reflexivity.
    rewrite storage_find_update, storage_find_open_same.
    assert (Hkeys : map fst es = map (resolve origin) STATIC_CACHE_URLS).
    { rewrite Hk. unfold manifest_requests. rewrite map_map. reflexivity. }
    destruct (storage_find CACHE_STATIC_NAME (caches w)) as [c|];
      cbn [option_map]; rewrite count_key_put_all, Hkeys; reflexivity. }
  split; [apply install_caches_idempotent|].
  split; [apply install_after_install; rewrite F; discriminate|].
  split; [exact Hcount|].
  intros Hnodup key. rewrite Hcount.
  destruct (mem key (map (resolve origin) STATIC_CACHE_URLS));
    [apply le_n|apply Hnodup].
Qed.

Lemma install_twice_witness :
  caches (snd (install example_origin (serves page_200)
                 (snd (install example_origin (serves page_200) empty_world))))
  = caches (snd (install example_origin (serves page_200) empty_world))
  /\ namespace_count CACHE_STATIC_NAME
       "https://police288.example/styles.css?v=2.1.0&t=1734705600"
       (caches (snd (install example_origin (serves page_200)
                       (snd (install example_origin (serves page_200)
                               empty_world)))))
     = 1.
Proof.
  assert (Hok : forall u, In u STATIC_CACHE_URLS ->
            exists r, serves page_200 (new_Request example_origin u "reload")
                      = NetResponse r /\ ok r = true /\
                      cache_accepts r = true).
  { intros u _. exists page_200. repeat split. }
  split.
  - exact (proj1 (install_twice_is_idempotent example_origin offline
                    (serves page_200) empty_world Hok)).
  - exact (proj1 (proj2 (proj2
             (install_twice_is_idempotent example_origin offline
                (serves page_200) empty_world Hok)))
             "https://police288.example/styles.css?v=2.1.0&t=1734705600").
Defined.

(** The same population run from the control channel ([updateCache]) is
    idempotent on the cache storage as well. *)
Lemma updateCache_caches_idempotent (origin : string) (net : Network) (w : World) :
  caches (snd (updateCache origin net (snd (updateCache origin net w)))) =
  caches (snd (updateCache origin net w)).
Proof.
  destruct w as [st ps tr].
  unfold updateCache, bind, caches_open, cache_addAll, emit, with_caches.
  fold (manifest_requests origin). cbn [caches pending trace].
  destruct (fetch_all net (manifest_requests origin)) as [es|];
    cbn [snd caches pending trace].
  - rewrite (storage_open_idem CACHE_STATIC_NAME)
      by (rewrite storage_has_update; apply storage_has_open).
    apply storage_update_twice. apply entries_put_all_idempotent.
  - apply storage_open_idem. apply storage_has_open.
Qed.

(** ** Routing *)

Lemma includes_empty (s : string) : includes s EmptyString = true.
Proof. destruct s; reflexivity. Qed.

(** The first manifest entry is '/', which [replace] turns into the empty
    string, and every URL includes the empty string: the static-asset test
    accepts every URL. *)
Lemma isStaticAsset_accepts_every_url (u : string) : isStaticAsset u = true.
Proof.
  unfold isStaticAsset, STATIC_CACHE_URLS. cbn [existsb].
  change (replace_first "/" EmptyString "/") with EmptyString.
  rewrite includes_empty. reflexivity.
Qed.

(** Hence the listener hands every request it intercepts to
    [handleStaticAsset]. *)
Lemma route_static_or_not_intercepted (request : Request) :
  route request = NotIntercepted \/ route request = StaticAsset.
Proof.
  unfold route.
  destruct (negb (String.eqb (method request) "GET")); [left; reflexivity|].
  destruct (negb (String.prefix "http" (url_protocol (url request))));
    [left; reflexivity|].
  rewrite isStaticAsset_accepts_every_url. right. reflexivity.
Qed.

Lemma respond_static (origin : string) (net : Network) (request : Request)
  (w : World) :
  String.eqb (method request) "GET" = true ->
  String.prefix "http" (url_protocol (url request)) = true ->
  respond origin net request w = Some (handleStaticAsset net request w).
Proof.
  intros Hget Hhttp. unfold respond, onfetch, route.
  rewrite Hget, Hhttp, isStaticAsset_accepts_every_url. reflexivity.
Qed.

Example cache_accepts_on_sample_responses :
  ok partial_content = true /\ cache_accepts partial_content = false /\
  ok varies_on_everything = true /\
  cache_accepts varies_on_everything = false /\
  cache_accepts page_200 = true /\ cache_accepts page_404 = true /\
  cache_accepts
    (mkResponse 200 [("Vary", "Accept-Encoding, Origin")] "body{}") = true.
Proof. repeat split. Qed.

Example classifiers_on_sample_urls :
  isImageRequest "https://police288.example/public/images/box.PNG" = true /\
  isImageRequest "https://police288.example/offers" = false /\
  isAPIRequest "https://analytics.tiktok.com/api/v2/pixel/track" = true /\
  isAPIRequest "https://police288.example/offers" = false /\
  route (get "https://police288.example/public/images/box.PNG") = StaticAsset /\
  route (mkRequest "POST" "https://hook.eu2.make.com/x" "default")
  = NotIntercepted /\
  route (get "chrome-extension://abc/page.html") = NotIntercepted.
Proof. repeat split. Qed.

End SWFacts.

(* ===================================================================== *)
(** * Further properties of sw.js *)
(* ===================================================================== *)

Module SWMore.
Import SW Inputs Messages MoreInputs SWFacts.

(** ** Routing *)

(** X1. The fetch listener leaves alone what is not a GET over http(s), and
    hands everything else to [handleStaticAsset]: the image, API and page
    branches are never taken. *)
Theorem onfetch_always_static
  (origin : string) (net : Network) (request : Request) :
  onfetch origin net request =
  if String.eqb (method request) "GET" &&
     String.prefix "http" (url_protocol (url request))
  then Some (handleStaticAsset net request)
  else None.
Proof.
  unfold onfetch, route.
  destruct (String.eqb (method request) "GET"); cbn [negb andb];
    [|reflexivity].
  destruct (String.prefix "http" (url_protocol (url request))); cbn [negb];
    [|reflexivity].
  rewrite isStaticAsset_accepts_every_url. reflexivity.
Qed.

(** ** What the handlers never do *)

(** X2. [handleImageRequest] always resolves with a response: it neither
    rejects nor resolves with [undefined], whatever the network and the
    caches do. *)
Theorem handleImageRequest_always_responds
  (net : Network) (request : Request) (w : World) :
  exists r, fst (handleImageRequest net request w) = Fulfilled (Some r).
Proof.
  destruct w as [st ps tr]. run_handler.
  destruct (storage_match (url request) st) as [cached|] eqn:Hm.
  - exists cached. reflexivity.
  - destruct (net request) as [resp|e]; cbn [caches pending trace].
    + exists resp. destruct (ok resp); reflexivity.
    + rewrite Hm. exists placeholder. reflexivity.
Qed.

(** X3. [handleStaticAsset] and [handleHTMLRequest] never reject: a network
    failure always ends in a fulfilled promise (of a response or of
    [undefined]). *)
Theorem caching_handlers_never_reject
  (origin : string) (net : Network) (request : Request) (w : World) :
  (exists v, fst (handleStaticAsset net request w) = Fulfilled v) /\
  (exists v, fst (handleHTMLRequest origin net request w) = Fulfilled v).
Proof.
  destruct w as [st ps tr]. run_handler. split.
  - destruct (storage_match (url request) st) as [cached|] eqn:Hm;
      [eexists; reflexivity|].
    destruct (net request) as [resp|e]; cbn [caches pending trace].
    + destruct (ok resp); eexists; reflexivity.
    + eexists; reflexivity.
  - destruct (net request) as [resp|e]; cbn [caches pending trace].
    + destruct (ok resp); eexists; reflexivity.
    + destruct (storage_match (url request) st); eexists; reflexivity.
Qed.

(** ** Round trips through the caches *)

Lemma storage_match_open key name (st : CacheStorage) :
  storage_match key (storage_open name st) = storage_match key st.
Proof.
  unfold storage_open. destruct (storage_has name st); [reflexivity|].
  induction st as [|[n c] st IH]; [reflexivity|].
  cbn. destruct (entries_match key c); [reflexivity|exact IH].
Qed.

Lemma storage_match_put_fresh key name r (st : CacheStorage) :
  storage_match key st = None ->
  storage_has name st = true ->
  storage_match key (storage_update name (entries_put key r) st) = Some r.
Proof.
  induction st as [|[n c] st IH]; intros Hmiss Hhas; [discriminate|].
  cbn in Hmiss. destruct (entries_match key c) eqn:Ec; [discriminate|].
  unfold storage_has in Hhas. cbn in Hhas.
  cbn [storage_update map fst snd]. destruct (String.eqb n name) eqn:En.
  - cbn [storage_match]. rewrite entries_match_put. reflexivity.
  - cbn [storage_match]. rewrite Ec. apply IH; [exact Hmiss|exact Hhas].
Qed.

(** A namespace other than the first keeps the first from being
    overtaken: what the head namespace holds is what a lookup returns. *)
Lemma storage_match_head key name c r (st : CacheStorage) :
  entries_match key c = Some r ->
  storage_match key ((name, c) :: st) = Some r.
Proof. intro H. cbn. rewrite H. reflexivity. Qed.

(** The storage once the write of a fetched response has settled. *)
Lemma handleStaticAsset_settled
  (net : Network) (request : Request) (st : CacheStorage) (tr : list Event)
  (resp : Response) :
  storage_match (url request) st = None ->
  net request = NetResponse resp ->
  ok resp = true ->
  cache_accepts resp = true ->
  handleStaticAsset net request (mkWorld st [] tr)
  = (Fulfilled (Some resp),
     mkWorld (storage_open CACHE_STATIC_NAME st)
       [mkPending CACHE_STATIC_NAME (url request) resp]
       (tr ++ [EvMatch (url request); EvFetch request;
               EvOpen CACHE_STATIC_NAME;
               EvPut CACHE_STATIC_NAME (url request) resp])).
Proof.
  intros Hmiss Hnet Hok Hacc. run_handler.
  rewrite Hmiss, Hnet. cbn [caches pending trace fst snd].
  rewrite Hok. cbn [caches pending trace fst snd]. rewrite Hacc.
  rewrite <- !app_assoc. reflexivity.
Qed.

(** A request whose response was written to the static namespace is
    answered from the caches, whatever the network does. *)
Lemma handleStaticAsset_cached
  (net' : Network) (request : Request) (st : CacheStorage) (tr : list Event)
  (resp : Response) :
  storage_match (url request) st = None ->
  let w1 :=
    settle (mkWorld (storage_open CACHE_STATIC_NAME st)
              [mkPending CACHE_STATIC_NAME (url request) resp] tr) in
  handleStaticAsset net' request w1
  = (Fulfilled (Some resp), emit (EvMatch (url request)) w1).
Proof.
  intros Hmiss w1.
  assert (Hw : caches w1 =
               storage_update CACHE_STATIC_NAME
                 (entries_put (url request) resp)
                 (storage_open CACHE_STATIC_NAME st)) by reflexivity.
  clearbody w1.
  unfold handleStaticAsset, try_catch, bind, caches_match, ret.
  rewrite Hw, storage_match_put_fresh; [reflexivity| |apply storage_has_open].
  rewrite storage_match_open. exact Hmiss.
Qed.

(** X4. Cache-first round trip.  When no cache holds the request and no other
    write is in flight, an ok response that the cache accepts (status other
    than 206, no [Vary: *]), fetched by [handleStaticAsset], is, once its
    write has settled, what the handler returns for the same request from
    then on, without touching the network. *)
Theorem handleStaticAsset_round_trip
  (net net' : Network) (request : Request) (w : World) (resp : Response) :
  storage_match (url request) (caches w) = None ->
  pending w = [] ->
  net request = NetResponse resp ->
  ok resp = true ->
  cache_accepts resp = true ->
  handleStaticAsset net' request (settle (snd (handleStaticAsset net request w)))
  = (Fulfilled (Some resp),
     emit (EvMatch (url request))
       (settle (snd (handleStaticAsset net request w)))).
Proof.
  intros Hmiss Hp Hnet Hok Hacc. destruct w as [st ps tr].
  cbn [caches pending] in Hmiss, Hp. subst ps.
  rewrite (handleStaticAsset_settled net request st tr resp Hmiss Hnet Hok Hacc).
  cbn [snd]. apply handleStaticAsset_cached. exact Hmiss.
Qed.

Lemma handleStaticAsset_round_trip_witness :
  handleStaticAsset offline (get "https://police288.example/extra.css")
    (settle (snd (handleStaticAsset (serves page_200)
                    (get "https://police288.example/extra.css") empty_world)))
  = (Fulfilled (Some page_200),
     emit (EvMatch (url (get "https://police288.example/extra.css")))
       (settle (snd (handleStaticAsset (serves page_200)
                       (get "https://police288.example/extra.css")
                       empty_world)))).
Proof.
  exact (handleStaticAsset_round_trip (serves page_200) offline
           (get "https://police288.example/extra.css") empty_world page_200
           eq_refl eq_refl eq_refl eq_refl eq_refl).
Defined.

(** ** What the listener does with API and image requests *)

(** C3 (code bug). An external-API request, as the fetch listener treats it:
    [isStaticAsset] accepts its URL like every other, so the listener hands
    it to [handleStaticAsset].  The first request reads the caches, is
    fetched, and its ok response is written to the static namespace; the
    second request for the same URL is answered with that copy, from the
    caches and without a fetch, whatever the network would have answered. *)
Theorem api_request_is_answered_from_cache
  (origin : string) (net1 net2 : Network) (request : Request) (w : World)
  (resp : Response) :
  String.eqb (method request) "GET" = true ->
  String.prefix "http" (url_protocol (url request)) = true ->
  isAPIRequest (url request) = true ->
  storage_match (url request) (caches w) = None ->
  pending w = [] ->
  net1 request = NetResponse resp ->
  ok resp = true ->
  cache_accepts resp = true ->
  let w1 :=
    mkWorld (storage_open CACHE_STATIC_NAME (caches w))
      [mkPending CACHE_STATIC_NAME (url request) resp]
      (trace w ++ [EvMatch (url request); EvFetch request;
                   EvOpen CACHE_STATIC_NAME;
                   EvPut CACHE_STATIC_NAME (url request) resp]) in
  respond origin net1 request w = Some (Fulfilled (Some resp), w1) /\
  namespace_entry CACHE_STATIC_NAME (url request) (caches (settle w1))
  = Some resp /\
  respond origin net2 request (settle w1)
  = Some (Fulfilled (Some resp), emit (EvMatch (url request)) (settle w1)).
Proof.
  intros Hget Hhttp _ Hmiss Hp Hnet Hok Hacc w1. destruct w as [st ps tr].
  cbn [caches pending trace] in *. subst ps.
  rewrite !respond_static by assumption.
  rewrite (handleStaticAsset_settled net1 request st tr resp Hmiss Hnet Hok Hacc).
  split; [reflexivity|]. split.
  - apply (settle_last CACHE_STATIC_NAME (url request) resp []).
    apply storage_has_open.
  - f_equal. apply handleStaticAsset_cached. exact Hmiss.
Qed.

Lemma api_request_witness :
  let request := get "https://analytics.tiktok.com/api/v2/pixel/track" in
  let w1 :=
    mkWorld [(CACHE_STATIC_NAME, [])]
      [mkPending CACHE_STATIC_NAME (url request) page_200]
      [EvMatch (url request); EvFetch request; EvOpen CACHE_STATIC_NAME;
       EvPut CACHE_STATIC_NAME (url request) page_200] in
  respond example_origin (serves page_200) request empty_world
  = Some (Fulfilled (Some page_200), w1) /\
  namespace_entry CACHE_STATIC_NAME (url request) (caches (settle w1))
  = Some page_200 /\
  respond example_origin offline request (settle w1)
  = Some (Fulfilled (Some page_200), emit (EvMatch (url request)) (settle w1)).
Proof.
  exact (api_request_is_answered_from_cache example_origin (serves page_200)
           offline (get "https://analytics.tiktok.com/api/v2/pixel/track")
           empty_world page_200
           eq_refl eq_refl eq_refl eq_refl eq_refl eq_refl eq_refl eq_refl).
Defined.

(** C4 (code bug). An image request, as the fetch listener treats it:
    [isStaticAsset] accepts its URL like every other, so the listener hands
    it to [handleStaticAsset].  When the fetch throws and no cache holds the
    request, the page gets a promise fulfilled with [undefined], not the
    placeholder, which only [handleImageRequest] would have produced. *)
Theorem image_request_gets_no_placeholder
  (origin : string) (net : Network) (request : Request) (w : World)
  (e : JsError) :
  String.eqb (method request) "GET" = true ->
  String.prefix "http" (url_protocol (url request)) = true ->
  isImageRequest (url request) = true ->
  net request = NetFailure e ->
  storage_match (url request) (caches w) = None ->
  respond origin net request w
  = Some (Fulfilled None,
          mkWorld (caches w) (pending w)
            (trace w ++ [EvMatch (url request); EvFetch request;
                         EvMatch (url request)])) /\
  fst (handleImageRequest net request w) = Fulfilled (Some placeholder).
Proof.
  intros Hget Hhttp Himg Hnet Hmiss.
  split; [|exact (proj1 (handleImageRequest_placeholder net request w e
                           Himg Hnet Hmiss))].
  rewrite respond_static by assumption. destruct w as [st ps tr].
  cbn [caches pending trace] in *. run_handler.
  rewrite Hmiss, Hnet. cbn [caches pending trace fst snd]. rewrite Hmiss.
  rewrite <- !app_assoc. reflexivity.
Qed.

Lemma image_request_witness :
  respond example_origin offline
    (get "https://police288.example/public/images/box.PNG") empty_world
  = Some (Fulfilled None,
          mkWorld [] []
            [EvMatch "https://police288.example/public/images/box.PNG";
             EvFetch (get "https://police288.example/public/images/box.PNG");
             EvMatch "https://police288.example/public/images/box.PNG"]).
Proof.
  exact (proj1 (image_request_gets_no_placeholder example_origin offline
                  (get "https://police288.example/public/images/box.PNG")
                  empty_world (mkError "TypeError" "Failed to fetch")
                  eq_refl eq_refl eq_refl eq_refl eq_refl)).
Defined.

(** X5. Network-first round trip.  When no cache holds the request and no other
    write is in flight, a page fetched with an ok response that the cache
    accepts (status other than 206, no [Vary: *]) is, once its write has
    settled, what [handleHTMLRequest] serves for the same request when the
    network is down. *)
Theorem handleHTMLRequest_offline_copy
  (origin : string) (net net' : Network) (request : Request) (w : World)
  (resp : Response) (e : JsError) :
  storage_match (url request) (caches w) = None ->
  pending w = [] ->
  net request = NetResponse resp ->
  ok resp = true ->
  cache_accepts resp = true ->
  net' request = NetFailure e ->
  fst (handleHTMLRequest origin net' request
         (settle (snd (handleHTMLRequest origin net request w))))
  = Fulfilled (Some resp).
Proof.
  intros Hmiss Hp Hnet Hok Hacc Hdown. destruct w as [st ps tr].
  cbn [caches pending] in Hmiss, Hp. subst ps.
  assert (Hw : caches (settle (snd (handleHTMLRequest origin net request
                                      (mkWorld st [] tr))))
               = storage_update CACHE_DYNAMIC_NAME
                   (entries_put (url request) resp)
                   (storage_open CACHE_DYNAMIC_NAME st)).
  { run_handler. rewrite Hnet. cbn [caches pending trace fst snd].
    rewrite Hok. cbn [caches pending trace fst snd]. rewrite Hacc.
    reflexivity. }
  set (w1 := settle _) in *.
  unfold handleHTMLRequest at 1, try_catch, bind, fetch, caches_match, ret, emit.
  rewrite Hdown. cbn [caches pending trace fst snd].
  rewrite Hw, storage_match_put_fresh; [reflexivity| |apply storage_has_open].
  rewrite storage_match_open. exact Hmiss.
Qed.

Lemma handleHTMLRequest_offline_copy_witness :
  fst (handleHTMLRequest example_origin offline
         (get "https://police288.example/offers")
         (settle (snd (handleHTMLRequest example_origin (serves page_200)
                         (get "https://police288.example/offers")
                         empty_world))))
  = Fulfilled (Some page_200).
Proof.
  exact (handleHTMLRequest_offline_copy example_origin (serves page_200)
           offline (get "https://police288.example/offers") empty_world
           page_200 (mkError "TypeError" "Failed to fetch")
           eq_refl eq_refl eq_refl eq_refl eq_refl eq_refl).
Defined.

Lemma storage_open_cons name n c (st : CacheStorage) :
  exists st', storage_open name ((n, c) :: st) = (n, c) :: st'.
Proof.
  unfold storage_open. destruct (storage_has name ((n, c) :: st)).
  - exists st. reflexivity.
  - exists (st ++ [(name, [])]). reflexivity.
Qed.

(** X6. Stale copies win.  [caches.match] searches the namespaces in creation
    order, so a copy of the request held by the static namespace, the first
    one the worker creates, is what [handleHTMLRequest] serves offline, even
    after a fresher ok response for the same request has been written to
    the dynamic namespace. *)
Theorem static_copy_shadows_fresh_page
  (origin : string) (net net' : Network) (request : Request) (w : World)
  (cs : Cache) (rest : CacheStorage) (r0 resp : Response) (e : JsError) :
  caches w = (CACHE_STATIC_NAME, cs) :: rest ->
  entries_match (url request) cs = Some r0 ->
  pending w = [] ->
  net request = NetResponse resp ->
  ok resp = true ->
  net' request = NetFailure e ->
  fst (handleHTMLRequest origin net' request
         (settle (snd (handleHTMLRequest origin net request w))))
  = Fulfilled (Some r0).
Proof.
  intros Hc Hr0 Hp Hnet Hok Hdown. destruct w as [st ps tr].
  cbn [caches pending] in Hc, Hp. subst ps st.
  assert (Hw : caches (settle (snd (handleHTMLRequest origin net request
                 (mkWorld ((CACHE_STATIC_NAME, cs) :: rest) [] tr))))
               = if cache_accepts resp
                 then storage_update CACHE_DYNAMIC_NAME
                        (entries_put (url request) resp)
                        (storage_open CACHE_DYNAMIC_NAME
                           ((CACHE_STATIC_NAME, cs) :: rest))
                 else storage_open CACHE_DYNAMIC_NAME
                        ((CACHE_STATIC_NAME, cs) :: rest)).
  { run_handler. rewrite Hnet. cbn [caches pending trace fst snd].
    rewrite Hok. cbn [caches pending trace fst snd].
    destruct (cache_accepts resp); reflexivity. }
  set (w1 := settle _) in *.
  unfold handleHTMLRequest at 1, try_catch, bind, fetch, caches_match, ret, emit.
  rewrite Hdown. cbn [caches pending trace fst snd]. rewrite Hw.
  destruct (storage_open_cons CACHE_DYNAMIC_NAME CACHE_STATIC_NAME cs rest)
    as [st' Hopen].
  rewrite Hopen. destruct (cache_accepts resp).
  - cbn [storage_update map fst snd].
    change (String.eqb CACHE_STATIC_NAME CACHE_DYNAMIC_NAME) with false.
    cbn iota. rewrite (storage_match_head _ _ _ _ _ Hr0). reflexivity.
  - rewrite (storage_match_head _ _ _ _ _ Hr0). reflexivity.
Qed.

Lemma static_copy_shadows_fresh_page_witness :
  fst (handleHTMLRequest example_origin offline
         (get "https://police288.example/")
         (settle (snd (handleHTMLRequest example_origin (serves fresh_page)
                         (get "https://police288.example/")
                         world_with_stale_root))))
  = Fulfilled (Some stale_page).
Proof.
  exact (static_copy_shadows_fresh_page example_origin (serves fresh_page)
           offline (get "https://police288.example/") world_with_stale_root
           [("https://police288.example/", stale_page)]
           [(CACHE_DYNAMIC_NAME, [])] stale_page fresh_page
           (mkError "TypeError" "Failed to fetch")
           eq_refl eq_refl eq_refl eq_refl eq_refl eq_refl).
Defined.

(** ** Installation, activation and the first offline visit *)

Lemma entries_match_in key r (c : Cache) :
  entries_match key c = Some r -> In (key, r) c.
Proof.
  unfold entries_match. induction c as [|[k v] c IH]; [discriminate|].
  cbn. destruct (String.eqb k key) eqn:E.
  - intro H. injection H as <-. apply String.eqb_eq in E. subst k.
    left. reflexivity.
  - intro H. right. apply IH. exact H.
Qed.

Lemma count_key_match key (c : Cache) :
  count_key key c = 1 -> exists r, entries_match key c = Some r.
Proof.
  unfold count_key, entries_match. induction c as [|[k v] c IH]; [discriminate|].
  cbn. destruct (String.eqb k key); [intros _; exists v; reflexivity|exact IH].
Qed.

Lemma entries_put_all_in (es : list (string * Response)) (c : Cache) e :
  In e (entries_put_all es c) -> In e c \/ In e es.
Proof.
  unfold entries_put_all. revert c.
  induction es as [|[k r] es IH]; intros c H; [left; exact H|].
  cbn [fold_left fst snd] in H. apply IH in H. destruct H as [H|H].
  - unfold entries_put in H. apply in_app_or in H. destruct H as [H|H].
    + left. unfold entries_remove in H. apply filter_In in H. apply H.
    + destruct H as [H|[]]. right. left. exact H.
  - right. right. exact H.
Qed.

Lemma fetch_all_in (net : Network) (requests : list Request) es k r :
  fetch_all net requests = Some es -> In (k, r) es ->
  exists q, In q requests /\ url q = k /\ net q = NetResponse r /\ ok r = true.
Proof.
  revert es. induction requests as [|q requests IH]; intros es H Hin.
  - injection H as <-. destruct Hin.
  - cbn [fetch_all] in H. destruct (net q) as [r'|] eqn:Hq; [|discriminate].
    destruct (ok r' && cache_accepts r') eqn:Hok; [|discriminate].
    apply andb_prop in Hok. destruct Hok as [Hok _].
    destruct (fetch_all net requests) as [es'|]; [|discriminate].
    injection H as <-. destruct Hin as [Hin|Hin].
    + injection Hin as <- <-. exists q. repeat split; auto. left. reflexivity.
    + destruct (IH es' eq_refl Hin) as [q' [Hq' Hrest]].
      exists q'. split; [right; exact Hq'|exact Hrest].
Qed.

Lemma namespace_entry_match name key r (st : CacheStorage) :
  namespace_entry name key st = Some r ->
  exists r', storage_match key st = Some r'.
Proof.
  unfold namespace_entry, storage_find.
  induction st as [|[n c] st IH]; [discriminate|].
  cbn. destruct (String.eqb n name).
  - cbn. intro H. rewrite H. exists r. reflexivity.
  - intro H. destruct (entries_match key c) as [r0|]; [exists r0; reflexivity|].
    apply IH. exact H.
Qed.

(** What the static namespace holds under a manifest URL after a
    successful install: the response the network gave for that URL. *)
Lemma install_entry (origin : string) (net : Network) (w : World) u :
  (forall u, In u STATIC_CACHE_URLS ->
     exists r, net (new_Request origin u "reload") = NetResponse r /\
               ok r = true /\ cache_accepts r = true) ->
  In u STATIC_CACHE_URLS ->
  exists r,
    net (new_Request origin u "reload") = NetResponse r /\
    namespace_entry CACHE_STATIC_NAME (resolve origin u)
      (caches (snd (install origin net w))) = Some r.
Proof.
  intros Hok Hu.
  destruct (fetch_all_ok net (manifest_requests origin)) as [es [F Hk]].
  { intros q Hq. unfold manifest_requests in Hq. apply in_map_iff in Hq.
    destruct Hq as [u' [Hu' Hin]]. subst q. apply Hok. exact Hin. }
  assert (Hkeys : map fst es = map (resolve origin) STATIC_CACHE_URLS).
  { rewrite Hk. unfold manifest_requests. rewrite map_map. reflexivity. }
  rewrite install_run, F. cbn [snd caches]. unfold namespace_entry.
  rewrite storage_find_open_other by reflexivity.
  rewrite storage_find_update, storage_find_open_same.
  set (c := match storage_find CACHE_STATIC_NAME (caches w) with
            | Some c => c | None => [] end).
  assert (Hfind : option_map (entries_put_all es)
                    match storage_find CACHE_STATIC_NAME (caches w) with
                    | Some c => Some c | None => Some [] end
                  = Some (entries_put_all es c)).
  { unfold c. destruct (storage_find CACHE_STATIC_NAME (caches w)); reflexivity. }
  rewrite Hfind.
  assert (Hmem : mem (resolve origin u) (map fst es) = true).
  { rewrite Hkeys. unfold mem. apply existsb_exists.
    exists (resolve origin u). split; [apply in_map; exact Hu|].
    apply String.eqb_refl. }
  assert (Hcount : count_key (resolve origin u) (entries_put_all es c) = 1).
  { rewrite count_key_put_all, Hmem. reflexivity. }
  destruct (count_key_match _ _ Hcount) as [r Hr].
  exists r. split; [|exact Hr].
  apply entries_match_in in Hr.
  rewrite entries_put_all_normal in Hr. apply in_app_or in Hr.
  destruct Hr as [Hr|Hr].
  { apply filter_In in Hr. destruct Hr as [_ Hr]. cbn [fst] in Hr.
    rewrite Hmem in Hr. discriminate. }
  apply entries_put_all_in in Hr. destruct Hr as [[]|Hr].
  destruct (fetch_all_in _ _ _ _ _ F Hr) as [q [Hq [Hurl [Hnet _]]]].
  unfold manifest_requests in Hq. apply in_map_iff in Hq.
  destruct Hq as [u' [Hq _]]. subst q. cbn [url new_Request] in Hurl.
  unfold new_Request in *. rewrite Hurl in Hnet. exact Hnet.
Qed.

(** X7. Offline after the first visit.  When the install fetched every manifest
    URL with an ok response that the cache accepts (status other than 206,
    no [Vary: *]), then after install and activation the static namespace
    holds, under each manifest URL, the response the network gave for it,
    and [handleStaticAsset] answers a request for that URL from the caches
    without touching the network. *)
Theorem manifest_served_offline_after_install
  (origin : string) (net net' : Network) (w : World) (u : string)
  (request : Request) :
  (forall u, In u STATIC_CACHE_URLS ->
     exists r, net (new_Request origin u "reload") = NetResponse r /\
               ok r = true /\ cache_accepts r = true) ->
  In u STATIC_CACHE_URLS ->
  url request = resolve origin u ->
  (exists r,
     net (new_Request origin u "reload") = NetResponse r /\
     namespace_entry CACHE_STATIC_NAME (resolve origin u)
       (caches (snd (activate (snd (install origin net w))))) = Some r) /\
  (exists r',
     handleStaticAsset net' request (snd (activate (snd (install origin net w))))
     = (Fulfilled (Some r'),
        emit (EvMatch (url request))
          (snd (activate (snd (install origin net w)))))).
Proof.
  intros Hok Hu Hurl.
  destruct (install_entry origin net w u Hok Hu) as [r [Hnet Hentry]].
  destruct (activate_caches (snd (install origin net w))) as [_ [_ Hact]].
  assert (Hentry' :
            namespace_entry CACHE_STATIC_NAME (resolve origin u)
              (caches (snd (activate (snd (install origin net w))))) = Some r).
  { rewrite Hact. unfold namespace_entry in *.
    rewrite storage_find_filter; [exact Hentry|]. intro c. reflexivity. }
  split; [exists r; split; assumption|].
  destruct (namespace_entry_match _ _ _ _ Hentry') as [r' Hr'].
  exists r'. unfold handleStaticAsset, try_catch, bind, caches_match, ret.
  rewrite Hurl, Hr'. reflexivity.
Qed.

Lemma manifest_served_offline_witness :
  exists r',
    handleStaticAsset offline (get "https://police288.example/index.html")
      (snd (activate (snd (install example_origin (serves page_200)
                             empty_world))))
    = (Fulfilled (Some r'),
       emit (EvMatch "https://police288.example/index.html")
         (snd (activate (snd (install example_origin (serves page_200)
                                empty_world))))).
Proof.
  assert (Hok : forall u, In u STATIC_CACHE_URLS ->
            exists r, serves page_200 (new_Request example_origin u "reload")
                      = NetResponse r /\ ok r = true /\
                      cache_accepts r = true).
  { intros u _. exists page_200. repeat split. }
  assert (Hin : In "/index.html" STATIC_CACHE_URLS).
  { right. left. reflexivity. }
  exact (proj2 (manifest_served_offline_after_install example_origin
                  (serves page_200) offline empty_world "/index.html"
                  (get "https://police288.example/index.html")
                  Hok Hin eq_refl)).
Defined.

(** ** All or nothing *)

Lemma fetch_all_unusable (net : Network) (requests : list Request) q :
  In q requests -> unusable net q -> fetch_all net requests = None.
Proof.
  unfold unusable. induction requests as [|q' requests IH]; intros Hin Hbad;
    [destruct Hin|].
  cbn [fetch_all]. destruct Hin as [Hin|Hin].
  - subst q'. destruct (net q) as [r|]; [rewrite Hbad|]; reflexivity.
  - destruct (net q') as [r|]; [|reflexivity].
    destruct (ok r && cache_accepts r); [|reflexivity].
    rewrite (IH Hin Hbad). reflexivity.
Qed.

Lemma manifest_request_in (origin u : string) :
  In u STATIC_CACHE_URLS ->
  In (new_Request origin u "reload") (manifest_requests origin).
Proof.
  intro H. unfold manifest_requests.
  apply (in_map (fun u => new_Request origin u "reload")). exact H.
Qed.

(** X8. One manifest URL that cannot be fetched with an ok response keeps the
    install handler from storing anything: no namespace gains or changes an
    entry, not even for the URLs that were fetched, and [skipWaiting] is not
    called: the handler opens the two namespaces, calls [cache.addAll], and
    does nothing more. *)
Theorem install_stores_nothing_on_failure
  (origin : string) (net : Network) (w : World) (u : string) :
  In u STATIC_CACHE_URLS ->
  unusable net (new_Request origin u "reload") ->
  same_entries w (snd (install origin net w)) /\
  trace (snd (install origin net w)) =
  trace w ++ [EvOpen CACHE_STATIC_NAME; EvOpen CACHE_DYNAMIC_NAME;
              EvAddAll CACHE_STATIC_NAME (map url (manifest_requests origin))].
Proof.
  intros Hu Hbad. rewrite install_run.
  rewrite (fetch_all_unusable net _ _ (manifest_request_in origin u Hu) Hbad).
  cbn [snd]. split; [|reflexivity].
  split; [reflexivity|]. intros name key. cbn [caches].
  rewrite !namespace_entry_open. reflexivity.
Qed.

Lemma install_stores_nothing_witness :
  same_entries empty_world
    (snd (install example_origin missing_stylesheet empty_world)).
Proof.
  assert (Hin : In "/styles.css?v=2.1.0&t=1734705600" STATIC_CACHE_URLS).
  { right. right. left. reflexivity. }
  exact (proj1 (install_stores_nothing_on_failure example_origin
                  missing_stylesheet empty_world
                  "/styles.css?v=2.1.0&t=1734705600" Hin eq_refl)).
Defined.

(** ** The control channel *)

Lemma updateCache_run (origin : string) (net : Network) (w : World) :
  updateCache origin net w =
  match fetch_all net (manifest_requests origin) with
  | Some es =>
      (Fulfilled tt,
       mkWorld
         (storage_update CACHE_STATIC_NAME (entries_put_all es)
            (storage_open CACHE_STATIC_NAME (caches w)))
         (pending w)
         (trace w ++ [EvOpen CACHE_STATIC_NAME;
                      EvAddAll CACHE_STATIC_NAME
                        (map url (manifest_requests origin))]))
  | None =>
      (Rejected (mkError "TypeError" "Request failed"),
       mkWorld (storage_open CACHE_STATIC_NAME (caches w)) (pending w)
         (trace w ++ [EvOpen CACHE_STATIC_NAME;
                      EvAddAll CACHE_STATIC_NAME
                        (map url (manifest_requests origin))]))
  end.
Proof.
  destruct w as [st ps tr].
  unfold updateCache, bind, caches_open, cache_addAll, emit, with_caches.
  fold (manifest_requests origin). cbn [caches pending trace].
  destruct (fetch_all net (manifest_requests origin));
    rewrite <- !app_assoc; reflexivity.
Qed.

Lemma onmessage_update (origin : string) (net : Network) :
  onmessage origin net (Some "UPDATE_CACHE") =
  bind (updateCache origin net) (fun _ => ret [ReplySuccess]).
Proof. reflexivity. Qed.

Lemma onmessage_clear (origin : string) (net : Network) :
  onmessage origin net (Some "CLEAR_CACHE") =
  bind clearAllCaches (fun _ => ret [ReplySuccess]).
Proof. reflexivity. Qed.

(** X9. UPDATE_CACHE with one manifest URL that cannot be fetched with an ok
    response: the listener's promise chain rejects, so no reply is ever
    posted to the page, and no namespace gains or changes an entry. *)
Theorem update_cache_failure_sends_no_reply
  (origin : string) (net : Network) (w : World) (u : string) :
  In u STATIC_CACHE_URLS ->
  unusable net (new_Request origin u "reload") ->
  fst (onmessage origin net (Some "UPDATE_CACHE") w)
  = Rejected (mkError "TypeError" "Request failed") /\
  same_entries w (snd (onmessage origin net (Some "UPDATE_CACHE") w)).
Proof.
  intros Hu Hbad. rewrite onmessage_update. unfold bind. rewrite updateCache_run.
  rewrite (fetch_all_unusable net _ _ (manifest_request_in origin u Hu) Hbad).
  cbn [fst snd]. split; [reflexivity|].
  split; [reflexivity|]. intros name key. cbn [caches].
  apply namespace_entry_open.
Qed.

Lemma update_cache_failure_witness :
  fst (onmessage example_origin missing_stylesheet (Some "UPDATE_CACHE")
         empty_world)
  = Rejected (mkError "TypeError" "Request failed").
Proof.
  assert (Hin : In "/styles.css?v=2.1.0&t=1734705600" STATIC_CACHE_URLS).
  { right. right. left. reflexivity. }
  exact (proj1 (update_cache_failure_sends_no_reply example_origin
                  missing_stylesheet empty_world
                  "/styles.css?v=2.1.0&t=1734705600" Hin eq_refl)).
Defined.

(** X10. UPDATE_CACHE when every manifest URL is fetched with an ok response
    that the cache accepts (status other than 206, no [Vary: *]): the page
    gets its [{ success: true }], and right after an install against the
    same network the cache storage is left exactly as the install left
    it. *)
Theorem update_cache_success_after_install
  (origin : string) (net : Network) (w : World) :
  (forall u, In u STATIC_CACHE_URLS ->
     exists r, net (new_Request origin u "reload") = NetResponse r /\
               ok r = true /\ cache_accepts r = true) ->
  fst (onmessage origin net (Some "UPDATE_CACHE") (snd (install origin net w)))
  = Fulfilled [ReplySuccess] /\
  caches (snd (onmessage origin net (Some "UPDATE_CACHE")
                 (snd (install origin net w))))
  = caches (snd (install origin net w)).
Proof.
  intro Hok.
  destruct (fetch_all_ok net (manifest_requests origin)) as [es [F _]].
  { intros q Hq. unfold manifest_requests in Hq. apply in_map_iff in Hq.
    destruct Hq as [u' [Hu' Hin]]. subst q. apply Hok. exact Hin. }
  rewrite onmessage_update. unfold bind, ret.
  rewrite updateCache_run, F. cbn [fst snd caches].
  split; [reflexivity|].
  rewrite install_run, F. cbn [snd caches].
  rewrite (storage_open_idem CACHE_STATIC_NAME)
    by (apply storage_has_open_other; rewrite storage_has_update;
        apply storage_has_open).
  rewrite storage_update_open by reflexivity.
  rewrite storage_update_twice by apply entries_put_all_idempotent.
  reflexivity.
Qed.

Lemma update_cache_success_witness :
  fst (onmessage example_origin (serves page_200) (Some "UPDATE_CACHE")
         (snd (install example_origin (serves page_200) empty_world)))
  = Fulfilled [ReplySuccess].
Proof.
  assert (Hok : forall u, In u STATIC_CACHE_URLS ->
            exists r, serves page_200 (new_Request example_origin u "reload")
                      = NetResponse r /\ ok r = true /\
                      cache_accepts r = true).
  { intros u _. exists page_200. repeat split. }
  exact (proj1 (update_cache_success_after_install example_origin
                  (serves page_200) empty_world Hok)).
Defined.

Lemma clear_deletions (names : list string) (w : World) :
  exists l tr,
    promise_all (map (fun cacheName => caches_delete cacheName) names) w
    = (Fulfilled l,
       mkWorld (fold_left (fun st name => storage_delete name st) names
                  (caches w))
               (pending w) tr).
Proof.
  revert w. induction names as [|n names IH]; intros [st ps tr].
  - exists [], tr. reflexivity.
  - cbn [map promise_all fold_left caches pending].
    unfold caches_delete at 1, emit, with_caches. cbn [caches pending trace].
    destruct (IH (mkWorld (storage_delete n st) ps (tr ++ [EvDelete n])))
      as [l [tr' E]].
    rewrite E. cbn [caches pending]. eexists; eexists; reflexivity.
Qed.

Lemma fold_delete_names (names : list string) (st : CacheStorage) :
  fold_left (fun st name => storage_delete name st) names st =
  filter (fun n => negb (mem (fst n) (rev names))) st.
Proof.
  revert st. induction names as [|name names IH]; intro st.
  - cbn. symmetry. apply filter_all. reflexivity.
  - cbn [fold_left rev]. rewrite IH. unfold storage_delete.
    rewrite filter_twice. apply filter_ext. intro n.
    unfold mem. rewrite existsb_app. cbn [existsb].
    rewrite orb_false_r, negb_orb, (String.eqb_sym name).
    apply andb_comm.
Qed.

Lemma clearAllCaches_empties (w : World) :
  fst (clearAllCaches w) = Fulfilled tt /\
  caches (snd (clearAllCaches w)) = [] /\
  pending (snd (clearAllCaches w)) = pending w.
Proof.
  destruct w as [st ps tr].
  destruct (clear_deletions (map fst st) (mkWorld st ps (tr ++ [EvKeys])))
    as [l [tr' E]].
  unfold clearAllCaches, bind, caches_keys, ret, emit.
  cbn [caches pending trace] in *. rewrite E. cbn [fst snd caches pending].
  repeat split. rewrite fold_delete_names. apply filter_none.
  intros n Hn. apply negb_false_iff. unfold mem. apply existsb_exists.
  exists (fst n). split; [|apply String.eqb_refl].
  apply in_rev. rewrite rev_involutive. apply in_map. exact Hn.
Qed.

(** X11. CLEAR_CACHE always answers [{ success: true }] and leaves no namespace
    at all; the next request [handleStaticAsset] sees goes to the network
    again, and with the network down it resolves with [undefined]. *)
Theorem clear_cache_empties_storage
  (origin : string) (net net' : Network) (request : Request) (w : World) :
  fst (onmessage origin net (Some "CLEAR_CACHE") w) = Fulfilled [ReplySuccess] /\
  caches (snd (onmessage origin net (Some "CLEAR_CACHE") w)) = [] /\
  fst (handleStaticAsset net' request
         (snd (onmessage origin net (Some "CLEAR_CACHE") w)))
  = match net' request with
    | NetResponse r => Fulfilled (Some r)
    | NetFailure _ => Fulfilled None
    end.
Proof.
  destruct (clearAllCaches_empties w) as [Ho [Hc _]].
  assert (Hrun : onmessage origin net (Some "CLEAR_CACHE") w
                 = (Fulfilled [ReplySuccess], snd (clearAllCaches w))).
  { rewrite onmessage_clear. unfold bind at 1, ret.
    destruct (clearAllCaches w) as [o w'] eqn:E. cbn [fst snd] in *.
    subst o. reflexivity. }
  rewrite Hrun. cbn [fst snd]. split; [reflexivity|]. split; [exact Hc|].
  destruct (snd (clearAllCaches w)) as [st ps tr]. cbn [caches] in Hc. subst st.
  run_handler. cbn [storage_match].
  destruct (net' request) as [r|e]; cbn [caches pending trace fst snd];
    [destruct (ok r)|]; reflexivity.
Qed.

(** A message without a type, with an empty type or with a type that is
    none of the three commands changes nothing and posts nothing. *)
Theorem unknown_message_is_ignored
  (origin : string) (net : Network) (w : World) :
  onmessage origin net None w = (Fulfilled [], w) /\
  forall t,
    t <> "SKIP_WAITING" -> t <> "CLEAR_CACHE" -> t <> "UPDATE_CACHE" ->
    onmessage origin net (Some t) w = (Fulfilled [], w).
Proof.
  split; [reflexivity|]. intros t H1 H2 H3. unfold onmessage.
  apply String.eqb_neq in H1, H2, H3. rewrite H1, H2, H3.
  destruct (negb (js_truthy (JStr t))); reflexivity.
Qed.

(** ** Activation, repeated *)

(** X12. Activating twice is activating once, and activation writes nothing:
    what a namespace holds afterwards is what it held, unless the namespace
    is an old version of this application, which then holds nothing. *)
Theorem activate_is_idempotent (w : World) :
  caches (snd (activate (snd (activate w)))) = caches (snd (activate w)) /\
  pending (snd (activate w)) = pending w /\
  forall name key,
    namespace_entry name key (caches (snd (activate w))) =
    if is_old_cache name then None else namespace_entry name key (caches w).
Proof.
  destruct (activate_caches w) as [_ [Hp Hc]].
  destruct (activate_caches (snd (activate w))) as [_ [_ Hc2]].
  split; [|split; [exact Hp|]].
  - rewrite Hc2, Hc, filter_twice. apply filter_ext. intro n. apply andb_diag.
  - intros name key. rewrite Hc. unfold namespace_entry.
    destruct (is_old_cache name) eqn:Eo.
    + rewrite storage_has_find; [reflexivity|].
      apply storage_has_filter. intro c. cbn [fst]. rewrite Eo. reflexivity.
    + rewrite storage_find_filter; [reflexivity|].
      intro c. cbn [fst]. rewrite Eo. reflexivity.
Qed.

End SWMore.

(* ===================================================================== *)
(** * Properties of the main slider *)
(* ===================================================================== *)

Module SliderFacts.
Import Slider.

Local Open Scope Z_scope.

(** The autoplay functions touch neither the position nor the page. *)
Lemma resetMainAutoPlay_view (s : State) :
  currentMainSlide (resetMainAutoPlay s) = currentMainSlide s /\
  totalMainSlides (resetMainAutoPlay s) = totalMainSlides s /\
  wrapper_transform (resetMainAutoPlay s) = wrapper_transform s /\
  indicators (resetMainAutoPlay s) = indicators s.
Proof.
  unfold resetMainAutoPlay, startMainAutoPlay, clearInterval_handle,
    setInterval_into_handle.
  destruct (mainAutoPlayInterval s); cbn;
    destruct (totalMainSlides s <=? 1); cbn; repeat split.
Qed.

Lemma showMainSlide_position (index : Z) (s : State) :
  currentMainSlide (showMainSlide index s) = currentMainSlide s /\
  totalMainSlides (showMainSlide index s) = totalMainSlides s.
Proof.
  unfold showMainSlide, updateIndicators.
  destruct (totalMainSlides s =? 0); [split; reflexivity|].
  destruct (wrapper_present s); split; reflexivity.
Qed.

Lemma changeMainSlide_position (direction : Z) (s : State) :
  totalMainSlides s <> 0 ->
  currentMainSlide (changeMainSlide direction s)
  = wrap (totalMainSlides s) (currentMainSlide s + direction) /\
  totalMainSlides (changeMainSlide direction s) = totalMainSlides s.
Proof.
  intro Ht. unfold changeMainSlide. apply Z.eqb_neq in Ht. rewrite Ht.
  cbv zeta. fold (wrap (totalMainSlides s) (currentMainSlide s + direction)).
  destruct (resetMainAutoPlay_view
              (showMainSlide (wrap (totalMainSlides s)
                                (currentMainSlide s + direction))
                 (set_current (wrap (totalMainSlides s)
                                 (currentMainSlide s + direction)) s)))
    as [Hc [Htot _]].
  rewrite Hc, Htot.
  destruct (showMainSlide_position
              (wrap (totalMainSlides s) (currentMainSlide s + direction))
              (set_current (wrap (totalMainSlides s)
                              (currentMainSlide s + direction)) s))
    as [Hc' Htot'].
  rewrite Hc', Htot'. split; reflexivity.
Qed.




Lemma wrap_step (total m : Z) :
  0 <= m < total -> wrap total (m + 1) = (m + 1) mod total.
Proof.
  intro Hm. unfold wrap.
  destruct (Z.geb_spec (m + 1) total).
  - replace (m + 1) with total by lia. rewrite Z.mod_same; lia.
  - destruct (Z.ltb_spec (m + 1) 0); [lia|].
    rewrite Z.mod_small; lia.
Qed.

Lemma autoplay_position (k : nat) (s : State) :
  0 <= currentMainSlide s < totalMainSlides s ->
  currentMainSlide (Nat.iter k (changeMainSlide 1) s)
  = (currentMainSlide s + Z.of_nat k) mod totalMainSlides s /\
  totalMainSlides (Nat.iter k (changeMainSlide 1) s) = totalMainSlides s.
Proof.
  intro Hc. induction k as [|k [IHc IHt]].
  - change (Nat.iter 0 (changeMainSlide 1) s) with s.
    rewrite Z.add_0_r, Z.mod_small by exact Hc.
    split; reflexivity.
  - change (Nat.iter (S k) (changeMainSlide 1) s)
      with (changeMainSlide 1 (Nat.iter k (changeMainSlide 1) s)).
    destruct (changeMainSlide_position 1 (Nat.iter k (changeMainSlide 1) s))
      as [Hp Ht]; [rewrite IHt; lia|].
    rewrite Hp, Ht, IHt, IHc. split; [|reflexivity].
    rewrite wrap_step by (apply Z.mod_pos_bound; lia).
    rewrite Zplus_mod_idemp_l. f_equal. lia.
Qed.

(** X14. Autoplay goes round: from a position on a slide, as many forward steps
    as there are slides lead back to the same slide, and a step forward
    followed by a step back does too. *)
Theorem autoplay_goes_round (s : State) :
  0 <= currentMainSlide s < totalMainSlides s ->
  currentMainSlide
    (Nat.iter (Z.to_nat (totalMainSlides s)) (changeMainSlide 1) s)
  = currentMainSlide s /\
  currentMainSlide (changeMainSlide (-1) (changeMainSlide 1 s))
  = currentMainSlide s.
Proof.
  intro Hc. split.
  - destruct (autoplay_position (Z.to_nat (totalMainSlides s)) s Hc) as [H _].
    rewrite H, Z2Nat.id by lia.
    rewrite <- (Z.mul_1_l (totalMainSlides s)) at 1.
    rewrite Z.mod_add by lia. apply Z.mod_small. exact Hc.
  - destruct (changeMainSlide_position 1 s) as [H1 T1]; [lia|].
    destruct (changeMainSlide_position (-1) (changeMainSlide 1 s))
      as [H2 _]; [rewrite T1; lia|].
    rewrite H2, T1, H1. unfold wrap.
    destruct (Z.geb_spec (currentMainSlide s + 1) (totalMainSlides s)).
    + destruct (Z.geb_spec (0 + -1) (totalMainSlides s)); [lia|].
      destruct (Z.ltb_spec (0 + -1) 0); lia.
    + destruct (Z.ltb_spec (currentMainSlide s + 1) 0); [lia|].
      destruct (Z.geb_spec (currentMainSlide s + 1 + -1) (totalMainSlides s));
        [lia|].
      destruct (Z.ltb_spec (currentMainSlide s + 1 + -1) 0); lia.
Qed.

Lemma autoplay_goes_round_witness :
  currentMainSlide (Nat.iter 3 (changeMainSlide 1) three_slides) = 0.
Proof.
  exact (proj1 (autoplay_goes_round three_slides (conj (Z.le_refl 0) eq_refl))).
Defined.

(** X15. [goToSlide] moves to the slide with the given index when there is one;
    an index outside [0, totalMainSlides) changes nothing at all, the
    autoplay timer included. *)
Theorem goToSlide_checks_bounds (index : Z) (s : State) :
  (0 <= index < totalMainSlides s ->
   currentMainSlide (goToSlide index s) = index /\
   totalMainSlides (goToSlide index s) = totalMainSlides s) /\
  (index < 0 \/ totalMainSlides s <= index -> goToSlide index s = s).
Proof.
  unfold goToSlide. split.
  - intro Hi.
    replace ((index >=? 0) && (index <? totalMainSlides s)) with true.
    + destruct (resetMainAutoPlay_view
                  (showMainSlide index (set_current index s))) as [Hc [Ht _]].
      destruct (showMainSlide_position index (set_current index s))
        as [Hc' Ht'].
      rewrite Hc, Ht, Hc', Ht'. split; reflexivity.
    + symmetry. apply andb_true_iff. split.
      * destruct (Z.geb_spec index 0); [reflexivity|lia].
      * apply Z.ltb_lt. lia.
  - intro Hi.
    replace ((index >=? 0) && (index <? totalMainSlides s)) with false;
      [reflexivity|].
    symmetry. apply andb_false_iff.
    destruct Hi as [Hi|Hi].
    + left. destruct (Z.geb_spec index 0); [lia|reflexivity].
    + right. apply Z.ltb_ge. exact Hi.
Qed.

(** ** Timers *)

Lemma clearInterval_handle_twice (s : State) :
  clearInterval_handle (clearInterval_handle s) = clearInterval_handle s.
Proof.
  destruct s as [c t [h|] x wp wt ind tm nx]; [|reflexivity].
  unfold clearInterval_handle. cbn. f_equal.
  induction tm as [|a l IH]; [reflexivity|].
  cbn [filter]. destruct (negb (Nat.eqb a h)) eqn:Et; cbn [filter];
    [rewrite Et, IH|rewrite IH]; reflexivity.
Qed.

Lemma timer_view_clear (s : State) :
  timer_view (clearInterval_handle s)
  = (totalMainSlides s, mainAutoPlayInterval s,
     without_timer (mainAutoPlayInterval s) (timers s), next_timer s).
Proof.
  destruct s as [c t [h|] x wp wt ind tm nx]; reflexivity.
Qed.

Lemma timer_view_start (s : State) :
  timer_view (startMainAutoPlay s)
  = if totalMainSlides s <=? 1 then timer_view s
    else (totalMainSlides s, Some (next_timer s),
          timers s ++ [next_timer s], S (next_timer s)).
Proof.
  unfold startMainAutoPlay. destruct (totalMainSlides s <=? 1); reflexivity.
Qed.

Lemma timer_view_show (index c : Z) (s : State) :
  timer_view (showMainSlide index (set_current c s)) = timer_view s.
Proof.
  unfold showMainSlide, updateIndicators, set_transform, set_indicators,
    set_current, timer_view. cbn.
  destruct (totalMainSlides s =? 0); [reflexivity|].
  destruct (wrapper_present s); reflexivity.
Qed.

Lemma timer_view_change (direction : Z) (s : State) :
  1 < totalMainSlides s ->
  timer_view (changeMainSlide direction s)
  = (totalMainSlides s, Some (next_timer s),
     without_timer (mainAutoPlayInterval s) (timers s) ++ [next_timer s],
     S (next_timer s)).
Proof.
  intro Ht. unfold changeMainSlide.
  replace (totalMainSlides s =? 0) with false
    by (symmetry; apply Z.eqb_neq; lia).
  cbv zeta. unfold resetMainAutoPlay.
  set (s2 := showMainSlide _ _).
  assert (H2 : timer_view s2 = timer_view s) by apply timer_view_show.
  pose proof (timer_view_clear s2) as Hc.
  unfold timer_view in H2. injection H2 as Ht2 Hh2 Htm2 Hn2.
  rewrite Ht2, Hh2, Htm2, Hn2 in Hc.
  rewrite timer_view_start.
  unfold timer_view in Hc. injection Hc as Ht3 Hh3 Htm3 Hn3.
  rewrite Ht3, Htm3, Hn3.
  replace (totalMainSlides s <=? 1) with false
    by (symmetry; apply Z.leb_gt; lia).
  reflexivity.
Qed.

Lemma without_timer_twice (h : option nat) (l : list nat) :
  without_timer h (without_timer h l) = without_timer h l.
Proof.
  destruct h as [h|]; [|reflexivity]. cbn [without_timer].
  induction l as [|a l IH]; [reflexivity|].
  cbn [filter]. destruct (negb (Nat.eqb a h)) eqn:Et; cbn [filter];
    [rewrite Et, IH|rewrite IH]; reflexivity.
Qed.

(** The state a swipe leaves, step by step. *)
Lemma swipe_state (x0 x1 : Z) (s : State) :
  1 < totalMainSlides s ->
  50 < Z.abs (x0 - x1) ->
  timers (touchend x1 (touchstart x0 s))
  = timers (pauseMainAutoPlay s) ++ [next_timer s; S (next_timer s)] /\
  mainAutoPlayInterval (touchend x1 (touchstart x0 s))
  = Some (S (next_timer s)) /\
  next_timer (touchend x1 (touchstart x0 s)) = S (S (next_timer s)).
Proof.
  intros Ht Hd.
  assert (H1 : timer_view (touchstart x0 s)
               = (totalMainSlides s, mainAutoPlayInterval s,
                  without_timer (mainAutoPlayInterval s) (timers s),
                  next_timer s) /\
               startX (touchstart x0 s) = x0).
  { unfold touchstart, pauseMainAutoPlay.
    destruct s as [c t [h|] x wp wt ind tm nx]; split; reflexivity. }
  destruct H1 as [H1 Hx]. set (s1 := touchstart x0 s) in *.
  unfold timer_view in H1. injection H1 as Ht1 Hh1 Htm1 Hn1.
  assert (Hp : timers (pauseMainAutoPlay s)
               = without_timer (mainAutoPlayInterval s) (timers s)).
  { unfold pauseMainAutoPlay.
    pose proof (timer_view_clear s) as Hc. unfold timer_view in Hc.
    injection Hc as _ _ Hc _. exact Hc. }
  rewrite Hp. unfold touchend. rewrite Hx.
  replace (Z.abs (x0 - x1) >? 50) with true
    by (symmetry; apply Z.gtb_lt; lia).
  set (d := if x0 - x1 >? 0 then 1 else -1).
  pose proof (timer_view_change d s1) as Hch.
  rewrite Ht1, Hh1, Htm1, Hn1, without_timer_twice in Hch.
  specialize (Hch Ht).
  pose proof (timer_view_start (changeMainSlide d s1)) as Hst.
  unfold timer_view in Hch. injection Hch as Ht2 Hh2 Htm2 Hn2.
  rewrite Ht2, Htm2, Hn2 in Hst.
  replace (totalMainSlides s <=? 1) with false in Hst
    by (symmetry; apply Z.leb_gt; lia).
  unfold timer_view in Hst. injection Hst as _ Hh3 Htm3 Hn3.
  rewrite Htm3, Hh3, Hn3, <- app_assoc. repeat split.
Qed.

(** X16. A swipe leaves one timer too many.  On a slider with more than one
    slide, a touch that moves more than 50 pixels ends with two new interval
    timers running, of which [mainAutoPlayInterval] holds only the second:
    pausing afterwards stops that one and the first keeps firing. *)
Theorem swipe_starts_two_timers (x0 x1 : Z) (s : State) :
  1 < totalMainSlides s ->
  50 < Z.abs (x0 - x1) ->
  timers (touchend x1 (touchstart x0 s))
  = timers (pauseMainAutoPlay s) ++ [next_timer s; S (next_timer s)] /\
  mainAutoPlayInterval (touchend x1 (touchstart x0 s))
  = Some (S (next_timer s)) /\
  In (next_timer s)
    (timers (pauseMainAutoPlay (touchend x1 (touchstart x0 s)))).
Proof.
  intros Ht Hd. destruct (swipe_state x0 x1 s Ht Hd) as [Htim [Hh _]].
  split; [exact Htim|]. split; [exact Hh|].
  unfold pauseMainAutoPlay, clearInterval_handle. rewrite Hh.
  cbn [timers]. rewrite Htim. apply filter_In. split.
  - apply in_or_app. right. left. reflexivity.
  - apply negb_true_iff, Nat.eqb_neq. lia.
Qed.

Lemma swipe_starts_two_timers_witness :
  timers (touchend 40 (touchstart 200 three_slides)) = [1%nat; 2%nat] /\
  mainAutoPlayInterval (touchend 40 (touchstart 200 three_slides))
  = Some 2%nat /\
  In 1%nat (timers (pauseMainAutoPlay
                      (touchend 40 (touchstart 200 three_slides)))).
Proof.
  exact (swipe_starts_two_timers 200 40 three_slides eq_refl eq_refl).
Defined.

Lemma lost_after_clear (id : nat) (s : State) :
  is_lost id s -> is_lost id (clearInterval_handle s).
Proof.
  destruct s as [c t [h|] x wp wt ind tm nx]; [|exact (fun H => H)].
  unfold is_lost, clearInterval_handle. cbn. intros [Hin [Hh Hn]].
  split; [|split; assumption].
  apply filter_In. split; [exact Hin|].
  apply negb_true_iff, Nat.eqb_neq. intro Heq. apply Hh. subst h. reflexivity.
Qed.

Lemma lost_after_start (id : nat) (s : State) :
  is_lost id s -> is_lost id (startMainAutoPlay s).
Proof.
  intros [Hin [Hh Hn]]. unfold startMainAutoPlay.
  destruct (totalMainSlides s <=? 1); [split; [|split]; assumption|].
  unfold is_lost, setInterval_into_handle.
  cbn [timers mainAutoPlayInterval next_timer].
  split; [apply in_or_app; left; exact Hin|].
  split; [intro H; injection H as H; lia|lia].
Qed.

Lemma lost_after_show (id : nat) (index c : Z) (s : State) :
  is_lost id s -> is_lost id (showMainSlide index (set_current c s)).
Proof.
  intro H. unfold showMainSlide, updateIndicators, set_transform,
    set_indicators, set_current. cbn.
  destruct (totalMainSlides s =? 0); [exact H|].
  destruct (wrapper_present s); exact H.
Qed.

Lemma lost_after_change (id : nat) (direction : Z) (s : State) :
  is_lost id s -> is_lost id (changeMainSlide direction s).
Proof.
  intro H. unfold changeMainSlide.
  destruct (totalMainSlides s =? 0); [exact H|]. cbv zeta.
  unfold resetMainAutoPlay.
  apply lost_after_start, lost_after_clear, lost_after_show. exact H.
Qed.

Lemma lost_after_action (id : nat) (a : Action) (s : State) :
  is_lost id s -> is_lost id (perform s a).
Proof.
  intro H. destruct a as [d|i| | |t|x|x]; cbn [perform].
  - apply lost_after_change. exact H.
  - unfold goToSlide.
    destruct ((i >=? 0) && (i <? totalMainSlides s)); [|exact H].
    unfold resetMainAutoPlay.
    apply lost_after_start, lost_after_clear, lost_after_show. exact H.
  - apply lost_after_clear. exact H.
  - apply lost_after_start. exact H.
  - unfold tick. destruct (existsb (Nat.eqb t) (timers s)); [|exact H].
    apply lost_after_change. exact H.
  - unfold touchstart, pauseMainAutoPlay. apply lost_after_clear.
    exact H.
  - unfold touchend. apply lost_after_start.
    destruct (Z.abs (startX s - x) >? 50); [|exact H].
    apply lost_after_change. exact H.
Qed.

Lemma lost_after_actions (id : nat) (actions : list Action) (s : State) :
  is_lost id s -> is_lost id (fold_left perform actions s).
Proof.
  revert s. induction actions as [|a actions IH]; intros s H; [exact H|].
  cbn [fold_left]. apply IH, lost_after_action. exact H.
Qed.

(** X17. A timer the page has lost track of is never stopped: whatever follows
    (slide changes, hovering, touches, timer firings), a running timer whose
    id is older than the next one to be handed out and is not the one in
    [mainAutoPlayInterval] keeps running. *)
Theorem lost_timer_is_never_stopped
  (id : nat) (actions : list Action) (s : State) :
  In id (timers s) ->
  mainAutoPlayInterval s <> Some id ->
  (id < next_timer s)%nat ->
  In id (timers (fold_left perform actions s)).
Proof.
  intros Hin Hh Hn.
  apply (lost_after_actions id actions s (conj Hin (conj Hh Hn))).
Qed.

Lemma lost_timer_witness :
  In 1%nat
    (timers (fold_left perform [MouseEnter; GoTo 2; Tick 1%nat; MouseEnter]
               (touchend 40 (touchstart 200 three_slides)))).
Proof.
  refine (lost_timer_is_never_stopped 1 [MouseEnter; GoTo 2; Tick 1%nat; MouseEnter]
            (touchend 40 (touchstart 200 three_slides)) _ _ _).
  - left. reflexivity.
  - discriminate.
  - apply Nat.leb_le. reflexivity.
Defined.

End SliderFacts.

(* ===================================================================== *)
(** * Properties of the order form *)
(* ===================================================================== *)

Module FormFacts.
Import Script Form ScriptFacts.

(** ** Trimming *)

Lemma trim_start_snoc (l : jsstring) (c : Z) :
  is_whitespace c = false -> trim_start (l ++ [c]) = trim_start l ++ [c].
Proof.
  intro Hc. induction l as [|x l IH]; cbn [app trim_start].
  - rewrite Hc. reflexivity.
  - destruct (is_whitespace x); [exact IH|reflexivity].
Qed.

Lemma trim_start_idem (s : jsstring) : trim_start (trim_start s) = trim_start s.
Proof.
  induction s as [|c s IH]; [reflexivity|].
  cbn [trim_start]. destruct (is_whitespace c) eqn:E; [exact IH|].
  cbn [trim_start]. rewrite E. reflexivity.
Qed.

Lemma trim_start_blank (s : jsstring) :
  (forall c, In c s -> is_whitespace c = true) -> trim_start s = [].
Proof.
  induction s as [|c s IH]; intro H; [reflexivity|].
  cbn [trim_start]. rewrite (H c (or_introl eq_refl)).
  apply IH. intros x Hx. apply H. right. exact Hx.
Qed.

Lemma trim_idem (s : jsstring) : trim (trim s) = trim s.
Proof.
  unfold trim, trim_end. set (a := trim_start s).
  assert (Ha : trim_start a = a) by apply trim_start_idem.
  destruct a as [|c a'] eqn:Ea; [reflexivity|].
  assert (Hc : is_whitespace c = false).
  { cbn [trim_start] in Ha. destruct (is_whitespace c); [|reflexivity].
    exfalso. assert (Hl : List.length (trim_start a') = S (List.length a'))
      by (rewrite Ha; reflexivity).
    assert (Hle : forall l, (List.length (trim_start l) <= List.length l)%nat).
    { induction l as [|x l IHl]; [apply le_n|].
      cbn [trim_start]. destruct (is_whitespace x); cbn [List.length]; lia. }
    specialize (Hle a'). lia. }
  cbn [rev]. rewrite (trim_start_snoc _ _ Hc), rev_app_distr. cbn [rev app].
  cbn [trim_start]. rewrite Hc. cbn [rev].
  rewrite rev_involutive, (trim_start_snoc _ _ Hc), trim_start_idem.
  rewrite rev_app_distr. reflexivity.
Qed.

Lemma trim_blank (s : jsstring) :
  (forall c, In c s -> is_whitespace c = true) -> trim s = [].
Proof. intro H. unfold trim. rewrite (trim_start_blank s H). reflexivity. Qed.

Lemma trim_start_map (f : Z -> Z) (s : jsstring) :
  (forall c, is_whitespace (f c) = is_whitespace c) ->
  trim_start (map f s) = map f (trim_start s).
Proof.
  intro Hf. induction s as [|c s IH]; [reflexivity|].
  cbn [map trim_start]. rewrite Hf. destruct (is_whitespace c);
    [exact IH|reflexivity].
Qed.

Lemma trim_map (f : Z -> Z) (s : jsstring) :
  (forall c, is_whitespace (f c) = is_whitespace c) ->
  trim (map f s) = map f (trim s).
Proof.
  intro Hf. unfold trim, trim_end.
  rewrite (trim_start_map f s Hf), <- map_rev, (trim_start_map f _ Hf), map_rev.
  reflexivity.
Qed.

Lemma digit_keeps_whitespace (c : Z) :
  is_whitespace (digit_to_english c) = is_whitespace c.
Proof.
  unfold digit_to_english.
  destruct (Z.leb_spec 1632 c) as [Hlo|Hlo];
    [destruct (Z.leb_spec c 1641) as [Hhi|Hhi]|]; cbn [andb]; try reflexivity.
  unfold is_whitespace. cbn [existsb].
  repeat match goal with
         | |- context [Z.eqb ?a ?b] =>
             replace (Z.eqb a b) with false by (symmetry; apply Z.eqb_neq; lia)
         end.
  replace (c - 1632 + 48 <=? 8202)%Z with true by (symmetry; apply Z.leb_le; lia).
  replace (8192 <=? c - 1632 + 48)%Z with false by (symmetry; apply Z.leb_gt; lia).
  replace (8192 <=? c)%Z with false by (symmetry; apply Z.leb_gt; lia).
  reflexivity.
Qed.

Lemma convert_trim (s : jsstring) :
  trim (convertArabicToEnglishNumbers s) = convertArabicToEnglishNumbers (trim s).
Proof. rewrite !convert_is_map. apply trim_map, digit_keeps_whitespace. Qed.

Lemma convert_idem (s : jsstring) :
  convertArabicToEnglishNumbers (convertArabicToEnglishNumbers s)
  = convertArabicToEnglishNumbers s.
Proof.
  rewrite !convert_is_map, map_map. apply map_ext, digit_to_english_idem.
Qed.

Lemma convert_no_arabic (s : jsstring) (c : Z) :
  In c (convertArabicToEnglishNumbers s) -> (c < 1632 \/ 1641 < c)%Z.
Proof.
  rewrite convert_is_map. intro H. apply in_map_iff in H.
  destruct H as [x [Hx _]]. subst c. unfold digit_to_english.
  destruct (Z.leb_spec 1632 x); destruct (Z.leb_spec x 1641); cbn [andb]; lia.
Qed.

Lemma jsstring_eqb_eq (a b : jsstring) : jsstring_eqb a b = true <-> a = b.
Proof.
  unfold jsstring_eqb. destruct (list_eq_dec Z.eq_dec a b); split; auto.
  discriminate.
Qed.

Lemma jsstring_eqb_refl (a : jsstring) : jsstring_eqb a a = true.
Proof. apply jsstring_eqb_eq. reflexivity. Qed.

(** ** validateField *)

Lemma validateField_run (field : Field) :
  validateField field =
  (fst (check (id field) (checked_value field)),
   mkField (id field)
     (if String.eqb (id field) "phone" || String.eqb (id field) "whatsapp"
      then checked_value field else value field)
     (if fst (check (id field) (checked_value field))
      then "#e2e8f0" else "#e53e3e")
     (if fst (check (id field) (checked_value field))
      then tl (errors field)
      else tl (errors field) ++ [snd (check (id field) (checked_value field))])).
Proof.
  unfold validateField, checked_value.
  destruct (String.eqb (id field) "phone" || String.eqb (id field) "whatsapp");
    cbn [andb].
  - remember (convertArabicToEnglishNumbers (trim (value field))) as v eqn:Hv.
    clear Hv.
    destruct (jsstring_eqb (value field) v) eqn:E; cbn [negb].
    + apply jsstring_eqb_eq in E. subst v.
      destruct (check (id field) (value field)) as [[|] msg];
        cbn [negb fst snd]; reflexivity.
    + destruct (check (id field) v) as [[|] msg]; cbn [negb fst snd];
        reflexivity.
  - destruct (check (id field) (trim (value field))) as [[|] msg];
      cbn [negb fst snd]; reflexivity.
Qed.

Lemma short_tail {A : Type} (l : list A) :
  (List.length l <= 1)%nat -> tl l = [].
Proof. destruct l as [|a [|b l]]; cbn; [reflexivity|reflexivity|lia]. Qed.

(** X18. Errors do not pile up.  On a field whose parent shows at most one error,
    [validateField] leaves no error and the neutral border when the field is
    valid, and exactly one error and the red border when it is not. *)
Theorem validateField_shows_one_error (field : Field) :
  (List.length (errors field) <= 1)%nat ->
  (fst (validateField field) = true /\
   errors (snd (validateField field)) = [] /\
   borderColor (snd (validateField field)) = "#e2e8f0") \/
  (fst (validateField field) = false /\
   (exists message, errors (snd (validateField field)) = [message]) /\
   borderColor (snd (validateField field)) = "#e53e3e").
Proof.
  intro Hl. rewrite validateField_run. cbn [fst snd errors borderColor].
  rewrite (short_tail _ Hl).
  destruct (fst (check (id field) (checked_value field))).
  - left. repeat split.
  - right. repeat split. eexists. reflexivity.
Qed.

Lemma validateField_shows_one_error_witness :
  fst (validateField sample_name_blank) = false /\
  errors (snd (validateField sample_name_blank)) = ["الاسم مطلوب"].
Proof.
  destruct (validateField_shows_one_error sample_name_blank (le_S 0 0 (le_n 0)))
    as [[H _]|[H _]].
  - discriminate H.
  - split; [exact H|reflexivity].
Defined.

Lemma checked_value_again (field : Field) :
  checked_value (snd (validateField field)) = checked_value field.
Proof.
  rewrite validateField_run. unfold checked_value. cbn [snd id value].
  destruct (String.eqb (id field) "phone" || String.eqb (id field) "whatsapp").
  - rewrite convert_trim, trim_idem, convert_idem. reflexivity.
  - reflexivity.
Qed.

(** X19. Validating again changes nothing: on a field whose parent shows at most
    one error, a second [validateField] returns the same verdict and leaves
    the field exactly as the first call left it. *)
Theorem validateField_is_idempotent (field : Field) :
  (List.length (errors field) <= 1)%nat ->
  validateField (snd (validateField field)) = validateField field.
Proof.
  intro Hl.
  rewrite (validateField_run (snd (validateField field))).
  rewrite checked_value_again.
  rewrite (validateField_run field) at 9.
  rewrite (validateField_run field). cbn [fst snd id value errors borderColor].
  rewrite (short_tail _ Hl).
  unfold checked_value at 3.
  destruct (String.eqb (id field) "phone" || String.eqb (id field) "whatsapp")
    eqn:En.
  - destruct (fst (check (id field) (checked_value field))); reflexivity.
  - destruct (fst (check (id field) (checked_value field))); reflexivity.
Qed.

Lemma validateField_is_idempotent_witness :
  validateField (snd (validateField sample_phone)) = validateField sample_phone.
Proof.
  exact (validateField_is_idempotent sample_phone (le_S 0 0 (le_n 0))).
Defined.

(** X20. The two numeric fields are normalised.  After [validateField] the value
    of a 'phone' or 'whatsapp' field is its old value, trimmed and converted:
    it holds no Arabic-Indic digit and neither starts nor ends with white
    space. *)
Theorem validateField_normalises_numbers (field : Field) :
  id field = "phone" \/ id field = "whatsapp" ->
  value (snd (validateField field))
  = convertArabicToEnglishNumbers (trim (value field)) /\
  (forall c, In c (value (snd (validateField field))) ->
             (c < 1632 \/ 1641 < c)%Z) /\
  trim (value (snd (validateField field))) = value (snd (validateField field)).
Proof.
  intro Hid. rewrite validateField_run. cbn [snd value]. unfold checked_value.
  replace (String.eqb (id field) "phone" || String.eqb (id field) "whatsapp")
    with true
    by (destruct Hid as [H|H]; rewrite H; reflexivity).
  split; [reflexivity|]. split.
  - intros c. apply convert_no_arabic.
  - rewrite convert_trim, trim_idem. reflexivity.
Qed.

Lemma validateField_normalises_numbers_witness :
  value (snd (validateField sample_phone)) = [48; 49; 49; 50]%Z.
Proof.
  exact (proj1 (validateField_normalises_numbers sample_phone
                  (or_introl eq_refl))).
Defined.

(** X21. A required text field that holds nothing but white space (or nothing at
    all) is rejected. *)
Theorem validateField_rejects_blank (field : Field) :
  id field = "name" \/ id field = "phone" \/ id field = "address" ->
  (forall c, In c (value field) -> is_whitespace c = true) ->
  fst (validateField field) = false.
Proof.
  intros Hid Hblank. rewrite validateField_run. cbn [fst].
  unfold checked_value. rewrite (trim_blank _ Hblank).
  destruct Hid as [H|[H|H]]; rewrite H; reflexivity.
Qed.

Lemma validateField_rejects_blank_witness :
  fst (validateField sample_name_blank) = false.
Proof.
  refine (validateField_rejects_blank sample_name_blank (or_introl eq_refl) _).
  intros c [H|[H|[H|[]]]]; subst c; reflexivity.
Defined.

(** ** validateForm *)

Lemma getElementById_id (doc : Document) i f :
  getElementById doc i = Some f -> id f = i.
Proof.
  unfold getElementById. intro H. apply find_some in H.
  apply String.eqb_eq. apply H.
Qed.

Lemma get_replace_same (doc : Document) i f f' :
  getElementById doc i = Some f -> id f' = i ->
  getElementById (replace_element i f' doc) i = Some f'.
Proof.
  unfold getElementById. intros H Hid.
  induction doc as [|g doc IH]; [discriminate|].
  cbn [find replace_element] in *. destruct (String.eqb (id g) i) eqn:E.
  - cbn [find]. rewrite Hid, String.eqb_refl. reflexivity.
  - cbn [find]. rewrite E. apply IH. exact H.
Qed.

Lemma get_replace_other (doc : Document) i j f' :
  i <> j -> id f' = i ->
  getElementById (replace_element i f' doc) j = getElementById doc j.
Proof.
  unfold getElementById. intros Hij Hid.
  induction doc as [|g doc IH]; [reflexivity|].
  cbn [find replace_element]. destruct (String.eqb (id g) i) eqn:E.
  - cbn [find]. apply String.eqb_eq in E.
    replace (String.eqb (id f') j) with false
      by (symmetry; apply String.eqb_neq; congruence).
    replace (String.eqb (id g) j) with false
      by (symmetry; apply String.eqb_neq; congruence).
    reflexivity.
  - cbn [find]. destruct (String.eqb (id g) j); [reflexivity|exact IH].
Qed.

Lemma validateField_id (field : Field) :
  id (snd (validateField field)) = id field.
Proof. rewrite validateField_run. reflexivity. Qed.

Lemma validate_each_step i rest isValid (doc : Document) f :
  getElementById doc i = Some f ->
  validate_each (i :: rest) isValid doc =
  validate_each rest (if negb (fst (validateField f)) then false else isValid)
    (replace_element i (snd (validateField f)) doc).
Proof.
  intro H. cbn [validate_each]. rewrite H.
  destruct (validateField f) as [valid f']. reflexivity.
Qed.

Lemma convert_length (s : jsstring) :
  List.length (convertArabicToEnglishNumbers s) = List.length s.
Proof. rewrite convert_is_map. apply length_map. Qed.

Lemma validity_by_length (field : Field) :
  fst (validateField field) =
  if String.eqb (id field) "name"
  then (2 <=? List.length (trim (value field)))%nat
  else if String.eqb (id field) "phone"
  then (1 <=? List.length (trim (value field)))%nat
  else if String.eqb (id field) "whatsapp" then true
  else if String.eqb (id field) "address"
  then (10 <=? List.length (trim (value field)))%nat
  else true.
Proof.
  rewrite validateField_run. cbn [fst]. unfold checked_value, check.
  destruct (String.eqb (id field) "name") eqn:E1.
  - apply String.eqb_eq in E1. rewrite E1. cbn [String.eqb orb].
    change (String.eqb "name" "phone") with false.
    change (String.eqb "name" "whatsapp") with false. cbn [orb].
    destruct (trim (value field)) as [|a [|b l]]; reflexivity.
  - destruct (String.eqb (id field) "phone") eqn:E2.
    + cbn [orb].
      destruct (convertArabicToEnglishNumbers (trim (value field))) eqn:Ec;
        pose proof (convert_length (trim (value field))) as Hl;
        rewrite Ec in Hl; cbn [List.length] in Hl; rewrite <- Hl; reflexivity.
    + destruct (String.eqb (id field) "whatsapp") eqn:E3; [reflexivity|].
      cbn [orb]. destruct (String.eqb (id field) "address"); [|reflexivity].
      destruct (trim (value field)) as [|a l]; [reflexivity|].
      cbn [fst List.length].
      destruct (S (List.length l) <? 10)%nat eqn:El; cbn [fst].
      * symmetry. apply Nat.leb_gt. apply Nat.ltb_lt in El. exact El.
      * symmetry. apply Nat.leb_le. apply Nat.ltb_ge in El. exact El.
Qed.

(** X22. What [validateForm] accepts.  On a page that has the four required
    elements the form is valid exactly when the trimmed name has at least 2
    code units, the trimmed phone at least 1 and the trimmed address at
    least 10 (the quantity is never looked at); and every one of the four
    is validated, so that each shows its own error even after an earlier
    one failed. *)
Theorem validateForm_accepts
  (doc : Document) (name phone quantity address : Field) :
  getElementById doc "name" = Some name ->
  getElementById doc "phone" = Some phone ->
  getElementById doc "quantity" = Some quantity ->
  getElementById doc "address" = Some address ->
  fst (validateForm doc)
  = inr ((2 <=? List.length (trim (value name)))%nat &&
         (1 <=? List.length (trim (value phone)))%nat &&
         (10 <=? List.length (trim (value address)))%nat) /\
  getElementById (snd (validateForm doc)) "name"
  = Some (snd (validateField name)) /\
  getElementById (snd (validateForm doc)) "phone"
  = Some (snd (validateField phone)) /\
  getElementById (snd (validateForm doc)) "quantity"
  = Some (snd (validateField quantity)) /\
  getElementById (snd (validateForm doc)) "address"
  = Some (snd (validateField address)).
Proof.
  intros Hn Hp Hq Ha. unfold validateForm, requiredFields.
  pose proof (validateField_id name) as In.
  pose proof (validateField_id phone) as Ip.
  pose proof (validateField_id quantity) as Iq.
  pose proof (validateField_id address) as Ia.
  rewrite (getElementById_id _ _ _ Hn) in In.
  rewrite (getElementById_id _ _ _ Hp) in Ip.
  rewrite (getElementById_id _ _ _ Hq) in Iq.
  rewrite (getElementById_id _ _ _ Ha) in Ia.
  set (d1 := replace_element "name" (snd (validateField name)) doc).
  set (d2 := replace_element "phone" (snd (validateField phone)) d1).
  set (d3 := replace_element "quantity" (snd (validateField quantity)) d2).
  set (d4 := replace_element "address" (snd (validateField address)) d3).
  assert (G1p : getElementById d1 "phone" = Some phone)
    by (unfold d1; rewrite get_replace_other; [exact Hp|discriminate|exact In]).
  assert (G1q : getElementById d1 "quantity" = Some quantity)
    by (unfold d1; rewrite get_replace_other; [exact Hq|discriminate|exact In]).
  assert (G1a : getElementById d1 "address" = Some address)
    by (unfold d1; rewrite get_replace_other; [exact Ha|discriminate|exact In]).
  assert (G1n : getElementById d1 "name" = Some (snd (validateField name)))
    by (unfold d1; apply (get_replace_same _ _ name); [exact Hn|exact In]).
  assert (G2q : getElementById d2 "quantity" = Some quantity)
    by (unfold d2; rewrite get_replace_other; [exact G1q|discriminate|exact Ip]).
  assert (G2a : getElementById d2 "address" = Some address)
    by (unfold d2; rewrite get_replace_other; [exact G1a|discriminate|exact Ip]).
  assert (G2n : getElementById d2 "name" = Some (snd (validateField name)))
    by (unfold d2; rewrite get_replace_other; [exact G1n|discriminate|exact Ip]).
  assert (G2p : getElementById d2 "phone" = Some (snd (validateField phone)))
    by (unfold d2; apply (get_replace_same _ _ phone); [exact G1p|exact Ip]).
  assert (G3a : getElementById d3 "address" = Some address)
    by (unfold d3; rewrite get_replace_other; [exact G2a|discriminate|exact Iq]).
  assert (G3n : getElementById d3 "name" = Some (snd (validateField name)))
    by (unfold d3; rewrite get_replace_other; [exact G2n|discriminate|exact Iq]).
  assert (G3p : getElementById d3 "phone" = Some (snd (validateField phone)))
    by (unfold d3; rewrite get_replace_other; [exact G2p|discriminate|exact Iq]).
  assert (G3q : getElementById d3 "quantity"
                = Some (snd (validateField quantity)))
    by (unfold d3; apply (get_replace_same _ _ quantity); [exact G2q|exact Iq]).
  assert (G4n : getElementById d4 "name" = Some (snd (validateField name)))
    by (unfold d4; rewrite get_replace_other; [exact G3n|discriminate|exact Ia]).
  assert (G4p : getElementById d4 "phone" = Some (snd (validateField phone)))
    by (unfold d4; rewrite get_replace_other; [exact G3p|discriminate|exact Ia]).
  assert (G4q : getElementById d4 "quantity"
                = Some (snd (validateField quantity)))
    by (unfold d4; rewrite get_replace_other; [exact G3q|discriminate|exact Ia]).
  assert (G4a : getElementById d4 "address"
                = Some (snd (validateField address)))
    by (unfold d4; apply (get_replace_same _ _ address); [exact G3a|exact Ia]).
  rewrite (validate_each_step _ _ _ _ _ Hn). fold d1.
  rewrite (validate_each_step _ _ _ _ _ G1p). fold d2.
  rewrite (validate_each_step _ _ _ _ _ G2q). fold d3.
  rewrite (validate_each_step _ _ _ _ _ G3a). fold d4.
  cbn [validate_each fst snd].
  split; [|repeat split; assumption].
  rewrite (validity_by_length name), (validity_by_length phone),
    (validity_by_length quantity), (validity_by_length address).
  rewrite (getElementById_id _ _ _ Hn), (getElementById_id _ _ _ Hp),
    (getElementById_id _ _ _ Hq), (getElementById_id _ _ _ Ha).
  cbn [String.eqb Ascii.eqb Bool.eqb].
  change (String.eqb "phone" "name") with false.
  change (String.eqb "quantity" "name") with false.
  change (String.eqb "address" "name") with false.
  destruct (2 <=? List.length (trim (value name)))%nat;
    destruct (1 <=? List.length (trim (value phone)))%nat;
    destruct (10 <=? List.length (trim (value address)))%nat; reflexivity.
Qed.

Lemma validateForm_accepts_witness :
  fst (validateForm sample_form) = inr false.
Proof.
  exact (proj1 (validateForm_accepts sample_form
                  (mkField "name" [65]%Z "#e2e8f0" []) sample_phone
                  (mkField "quantity" [49]%Z "#e2e8f0" [])
                  (mkField "address" [32]%Z "#e2e8f0" [])
                  eq_refl eq_refl eq_refl eq_refl)).
Defined.

Lemma validate_each_missing (ids : list string) (isValid : bool)
  (doc : Document) (i : string) :
  In i ids -> getElementById doc i = None ->
  exists e, fst (validate_each ids isValid doc) = inl e /\
            err_name e = "TypeError".
Proof.
  revert isValid doc. induction ids as [|j ids IH]; intros isValid doc Hin Hnone;
    [destruct Hin|].
  cbn [validate_each].
  destruct (getElementById doc j) as [f|] eqn:Hj.
  - destruct (validateField f) as [valid f'] eqn:Hv.
    assert (Hij : j <> i) by (intro; subst j; congruence).
    apply IH.
    + destruct Hin as [Hin|Hin]; [contradiction|exact Hin].
    + rewrite get_replace_other; [exact Hnone|exact Hij|].
      change f' with (snd (valid, f')). rewrite <- Hv, validateField_id.
      apply (getElementById_id _ _ _ Hj).
  - eexists. split; reflexivity.
Qed.

(** X23. When one of the four required elements is not in the page,
    [validateForm] does not return: it throws a TypeError. *)
Theorem validateForm_throws_without_element (doc : Document) (i : string) :
  In i requiredFields ->
  getElementById doc i = None ->
  exists e, fst (validateForm doc) = inl e /\ err_name e = "TypeError".
Proof. intros Hin Hnone. apply (validate_each_missing _ _ _ i Hin Hnone). Qed.

Lemma validateForm_throws_witness :
  exists e, fst (validateForm [sample_phone]) = inl e /\
            err_name e = "TypeError".
Proof.
  exact (validateForm_throws_without_element [sample_phone] "name"
           (or_introl eq_refl) eq_refl).
Defined.

(** ** Conversion while typing *)

(** X24. [handleNumberConversion] leaves the converted text in the field and the
    caret where it was; no Arabic-Indic digit is left, and running the
    handler again changes nothing. *)
Theorem handleNumberConversion_keeps_caret (field : TextInput) :
  (selectionStart field <= List.length (text field))%nat ->
  text (handleNumberConversion field)
  = convertArabicToEnglishNumbers (text field) /\
  selectionStart (handleNumberConversion field) = selectionStart field /\
  List.length (text (handleNumberConversion field)) = List.length (text field) /\
  (forall c, In c (text (handleNumberConversion field)) ->
             (c < 1632 \/ 1641 < c)%Z) /\
  handleNumberConversion (handleNumberConversion field)
  = handleNumberConversion field.
Proof.
  intro Hc.
  assert (Hrun : handleNumberConversion field =
                 if jsstring_eqb (text field)
                      (convertArabicToEnglishNumbers (text field))
                 then field
                 else mkTextInput (convertArabicToEnglishNumbers (text field))
                        (selectionStart field) (selectionStart field)).
  { unfold handleNumberConversion. rewrite convert_length, (Nat.min_l _ _ Hc).
    destruct (jsstring_eqb (text field)
                (convertArabicToEnglishNumbers (text field))); reflexivity. }
  destruct (jsstring_eqb (text field)
              (convertArabicToEnglishNumbers (text field))) eqn:E.
  - rewrite Hrun. apply jsstring_eqb_eq in E.
    split; [exact E|]. split; [reflexivity|]. split; [reflexivity|].
    split; [rewrite E; apply convert_no_arabic|].
    unfold handleNumberConversion. rewrite <- E, jsstring_eqb_refl.
    reflexivity.
  - rewrite Hrun. cbn [text selectionStart]. rewrite convert_length.
    split; [reflexivity|]. split; [reflexivity|].
    split; [reflexivity|]. split; [apply convert_no_arabic|].
    unfold handleNumberConversion. cbn [text].
    rewrite convert_idem, jsstring_eqb_refl. reflexivity.
Qed.

Lemma handleNumberConversion_witness :
  text (handleNumberConversion sample_input) = [48; 49; 50]%Z.
Proof.
  exact (proj1 (handleNumberConversion_keeps_caret sample_input
                  (le_n 3))).
Defined.

End FormFacts.

(* ===================================================================== *)
(** * Further properties of script.js *)
(* ===================================================================== *)

Module ScriptMore.
Import Script ScriptFacts Notifications.

(** X25. The output of [convertArabicToEnglishNumbers] holds no Arabic-Indic
    digit, and a string that holds none (ASCII digits, letters, the Persian
    digits U+06F0..U+06F9) comes back unchanged. *)
Theorem convert_leaves_no_arabic_digit (input : jsstring) :
  (forall c, In c (convertArabicToEnglishNumbers input) ->
             (c < 1632 \/ 1641 < c)%Z) /\
  ((forall c, In c input -> (c < 1632 \/ 1641 < c)%Z) ->
   convertArabicToEnglishNumbers input = input).
Proof.
  split.
  - intros c. apply FormFacts.convert_no_arabic.
  - intro H. rewrite convert_is_map. rewrite <- (map_id input) at 2.
    apply map_ext_in. intros c Hc. specialize (H c Hc).
    unfold digit_to_english.
    destruct (Z.leb_spec 1632 c); destruct (Z.leb_spec c 1641); cbn [andb];
      lia.
Qed.

Lemma sendToMakeWebhook_run net formData retryCount :
  sendToMakeWebhook net formData retryCount =
  ([EvPost formData retryCount],
   match try_post net retryCount with
   | inr result => result
   | inl error => Failure (err_message error)
   end).
Proof.
  funelim (sendToMakeWebhook net formData retryCount);
    match goal with
    | H : try_post _ _ = _ |- _ => rewrite H
    end; reflexivity.
Qed.

(** X26. [sendToMakeWebhook] reports success exactly when the one POST it makes
    is answered within 10 seconds with a status from 200 to 299, and the
    data it returns is that answer's body; an ok answer that arrives later
    is reported as a failure. *)
Theorem sendToMakeWebhook_succeeds_iff
  (net : nat -> PostOutcome) (formData body : string) :
  snd (sendToMakeWebhook net formData 0) = Success body <->
  exists latency status,
    net 0%nat = Responds latency status body /\
    (latency < 10000)%Z /\ (200 <= status <= 299)%Z.
Proof.
  rewrite sendToMakeWebhook_run. cbn [snd]. unfold try_post, timeout, response_ok.
  split.
  - destruct (net 0%nat) as [latency status b|latency message|].
    + destruct (Z.ltb_spec latency 10000) as [Hl|Hl]; [|discriminate].
      destruct (Z.leb_spec 200 status) as [H1|H1];
        destruct (Z.leb_spec status 299) as [H2|H2];
        cbn [andb]; try discriminate.
      intro Hb. injection Hb as <-. exists latency, status.
      repeat split; assumption.
    + destruct (latency <? 10000)%Z; discriminate.
    + discriminate.
  - intros [latency [status [Hn [Hl [Hs1 Hs2]]]]]. rewrite Hn.
    replace (latency <? 10000)%Z with true by (symmetry; apply Z.ltb_lt; lia).
    replace (200 <=? status)%Z with true by (symmetry; apply Z.leb_le; lia).
    replace (status <=? 299)%Z with true by (symmetry; apply Z.leb_le; lia).
    reflexivity.
Qed.

(** [isRushHour] is true exactly from 18:00 on: for an hour of the day its
    second window, 20 to 24, adds nothing to the first, 18 to 23. *)
Theorem isRushHour_from_six_pm (hour : Z) :
  (0 <= hour <= 23)%Z ->
  isRushHour hour = (18 <=? hour)%Z.
Proof.
  intro H. unfold isRushHour.
  destruct (Z.geb_spec hour 18); destruct (Z.leb_spec hour 23);
    destruct (Z.geb_spec hour 20); destruct (Z.leb_spec hour 24);
    destruct (Z.leb_spec 18 hour); cbn [andb orb]; lia || reflexivity.
Qed.

Lemma isRushHour_witness : isRushHour 19 = true.
Proof.
  apply (isRushHour_from_six_pm 19). lia.
Defined.

End ScriptMore.

(* ===================================================================== *)
(** * Properties of the notification ticker *)
(* ===================================================================== *)

Module TickerFacts.
Import Notifications.

Lemma remove_first_length (x : nat) (l : list nat) :
  (List.length (remove_first x l) <= List.length l)%nat.
Proof.
  induction l as [|y l IH]; [apply le_n|].
  cbn [remove_first]. destruct (Nat.eqb x y); cbn [List.length]; lia.
Qed.

Lemma remove_first_in (x y : nat) (l : list nat) :
  In y (remove_first x l) -> In y l.
Proof.
  induction l as [|z l IH]; [intros []|].
  cbn [remove_first]. destruct (Nat.eqb x z).
  - intro H. right. exact H.
  - intros [H|H]; [left; exact H|right; apply IH; exact H].
Qed.

Lemma hide_all_fields (l : list nat) (t : Ticker) :
  isActive (fold_left (fun acc n => hideNotification n acc) l t) = isActive t /\
  notificationQueue (fold_left (fun acc n => hideNotification n acc) l t)
  = notificationQueue t /\
  container (fold_left (fun acc n => hideNotification n acc) l t)
  = container t.
Proof.
  revert t. induction l as [|n l IH]; intro t; [repeat split|].
  cbn [fold_left]. destruct (IH (hideNotification n t)) as [H1 [H2 H3]].
  rewrite H1, H2, H3. repeat split.
Qed.

Lemma queue_bound_step (t : Ticker) (a : TickerAction) :
  (List.length (notificationQueue t) <= 1)%nat ->
  (List.length (notificationQueue (ticker_step t a)) <= 1)%nat.
Proof.
  intro H. destruct a as [|n|n| |]; cbn [ticker_step].
  - unfold showNotification, maxNotifications.
    destruct (negb (isActive t)); cbn [orb]; [exact H|].
    destruct (1 <=? List.length (notificationQueue t))%nat eqn:E; [exact H|].
    apply Nat.leb_gt in E. cbn [notificationQueue].
    rewrite length_app. cbn [List.length]. lia.
  - exact H.
  - cbn [removeNotification notificationQueue].
    pose proof (remove_first_length n (notificationQueue t)). lia.
  - unfold pauseNotifications.
    destruct (hide_all_fields (notificationQueue t)
                (mkTicker false (notificationQueue t) (container t) (hidden t)
                   (next_element t))) as [_ [Hq _]].
    rewrite Hq. exact H.
  - exact H.
Qed.

(** X27. At most one notification at a time: whatever the timers and the form do,
    and in whatever order, the queue never holds more than one
    notification once it holds at most one. *)
Theorem queue_never_exceeds_one (actions : list TickerAction) (t : Ticker) :
  (List.length (notificationQueue t) <= 1)%nat ->
  (List.length (notificationQueue (fold_left ticker_step actions t)) <= 1)%nat.
Proof.
  revert t. induction actions as [|a actions IH]; intros t H; [exact H|].
  cbn [fold_left]. apply IH, queue_bound_step, H.
Qed.

Lemma queue_never_exceeds_one_witness :
  (List.length
     (notificationQueue
        (fold_left ticker_step [Show; Show; HideTimer 0; Show; RemoveTimer 0;
                                Show] new_ticker)) <= 1)%nat.
Proof.
  exact (queue_never_exceeds_one
           [Show; Show; HideTimer 0; Show; RemoveTimer 0; Show] new_ticker
           (le_S 0 0 (le_n 0))).
Defined.

Lemma paused_step (t : Ticker) (a : TickerAction) :
  isActive t = false -> a <> Resume ->
  isActive (ticker_step t a) = false /\
  (forall n, In n (notificationQueue (ticker_step t a)) ->
             In n (notificationQueue t)).
Proof.
  intros Hp Ha. destruct a as [|n|n| |]; cbn [ticker_step].
  - unfold showNotification. rewrite Hp. cbn [negb orb]. auto.
  - split; [exact Hp|auto].
  - split; [exact Hp|]. intros m. cbn [removeNotification notificationQueue].
    apply remove_first_in.
  - unfold pauseNotifications.
    destruct (hide_all_fields (notificationQueue t)
                (mkTicker false (notificationQueue t) (container t) (hidden t)
                   (next_element t))) as [Hi [Hq _]].
    rewrite Hi, Hq. split; [reflexivity|auto].
  - contradiction.
Qed.

(** X28. Nothing new while the visitor fills in the form: from a paused ticker,
    as long as it is not resumed, no notification enters the queue, however
    often the timers reach [showNotification]. *)
Theorem paused_ticker_shows_nothing_new
  (actions : list TickerAction) (t : Ticker) (n : nat) :
  isActive t = false ->
  ~ In Resume actions ->
  In n (notificationQueue (fold_left ticker_step actions t)) ->
  In n (notificationQueue t).
Proof.
  revert t. induction actions as [|a actions IH]; intros t Hp Hr Hin;
    [exact Hin|].
  cbn [fold_left] in Hin.
  destruct (paused_step t a Hp) as [Hp' Hq].
  { intro Ha. apply Hr. left. exact Ha. }
  apply Hq. apply (IH (ticker_step t a)); [exact Hp'| |exact Hin].
  intro H. apply Hr. right. exact H.
Qed.

Lemma paused_ticker_witness :
  In 0%nat (notificationQueue (pauseNotifications (showNotification new_ticker))).
Proof.
  refine (paused_ticker_shows_nothing_new [Show; RemoveTimer 5; Show]
            (pauseNotifications (showNotification new_ticker)) 0
            eq_refl _ _).
  - intros [H|[H|[H|[]]]]; discriminate H.
  - left. reflexivity.
Defined.

End TickerFacts.

(* ===================================================================== *)
(** * The classifiers of sw.js *)
(* ===================================================================== *)

Module ClassifierFacts.
Import SW.

Lemma prefix_app (p s : string) : String.prefix p (p ++ s) = true.
Proof.
  induction p as [|c p IH]; [destruct s; reflexivity|].
  cbn. rewrite IH. destruct (ascii_dec c c) as [_|n]; [reflexivity|].
  exfalso. apply n. reflexivity.
Qed.

Lemma includes_infix (a p b : string) : includes (a ++ p ++ b) p = true.
Proof.
  induction a as [|c a IH].
  - cbn [append]. destruct (p ++ b)%string eqn:E.
    + cbn [includes]. rewrite <- E, prefix_app. reflexivity.
    + cbn [includes]. rewrite <- E, prefix_app. reflexivity.
  - cbn [append includes]. rewrite IH. apply orb_true_r.
Qed.

(** X29. [isAPIRequest] looks for its three host names anywhere in the URL: a URL
    that merely mentions one of them, in its path or its query string, is
    classified as an API request. *)
Theorem isAPIRequest_matches_anywhere (before after : string) :
  isAPIRequest (before ++ "make.com" ++ after) = true /\
  isAPIRequest (before ++ "analytics.tiktok.com" ++ after) = true /\
  isAPIRequest (before ++ "googleapis.com" ++ after) = true.
Proof.
  unfold isAPIRequest. rewrite !includes_infix.
  repeat split; rewrite ?orb_true_r; reflexivity.
Qed.

End ClassifierFacts.
